(** * Homeric formula deviation detection engine

    A shallow embedding of [deviation_detection_engine.py]: the formula
    pattern index, the mention scanner, the expectation model, the
    surprisal scorer and the deviation ranker, followed by the properties
    stated about them.

    Conventions of the embedding.
    - A Python [int] is a [Z].
    - A Python [float] is an extended real ([pyfloat]).  The floats that the
      engine compares against its fixed thresholds are quotients of two
      integers; they are kept as exact rationals ([Q]), so that every
      threshold test can be evaluated.  Rounding is not modelled.
    - A Python [str] is a [string]; [str.lower] is a variable of the
      development (instantiated with ASCII lower-casing in the examples,
      which is what it does on Beta Code text).
    - A [dict] whose iteration order cannot be observed in the results is a
      [gmap]; the JSON database, whose order decides the order of the
      pattern lists, is an association list.
    - A Python exception is the [Raise] branch of the [result] monad.
    - The loaders and the text report only read and write files; they are
      left out, and [save_deviation_data] returns the data it hands to
      [json.dump]. *)

From Stdlib Require Import ZArith QArith Reals Lra Lia String Ascii List.
From Stdlib Require Import Sorting.Sorted Sorting.Permutation.
From stdpp Require Import base option list gmap strings fin_maps.

Open Scope Z_scope.

(** ** Exceptions *)

Inductive exn : Type :=
| ZeroDivisionError
| ValueError
| KeyError.

Inductive result (A : Type) : Type :=
| Ok (a : A)
| Raise (e : exn).
Arguments Ok {A} a.
Arguments Raise {A} e.

#[global] Instance result_ret : MRet result := fun A a => Ok a.
#[global] Instance result_bind : MBind result := fun A B f r =>
  match r with
  | Ok a => f a
  | Raise e => Raise e
  end.

(** ** Numbers *)

(** [a / b] on two ints: true division, [ZeroDivisionError] on [b = 0]. *)
Definition py_truediv (a b : Z) : result Q :=
  if b =? 0 then Raise ZeroDivisionError else Ok (Qmake a 1 / Qmake b 1)%Q.

Inductive pyfloat : Type :=
| NInf
| Fin (r : R)
| PInf.

Definition log2 (x : R) : R := (ln x / ln 2)%R.

(** [math.log2]: [ValueError] outside the positive floats. *)
Definition math_log2 (p : Q) : result R :=
  if Qlt_le_dec 0 p then Ok (log2 (Q2R p)) else Raise ValueError.

(** Strict order of the floats, and the test [x > y]. *)
Definition flt (x y : pyfloat) : Prop :=
  match x, y with
  | NInf, NInf => False
  | NInf, _ => True
  | Fin a, Fin b => (a < b)%R
  | Fin _, PInf => True
  | _, _ => False
  end.

Definition flt_dec (x y : pyfloat) : {flt x y} + {~ flt x y}.
Proof.
  destruct x as [|a|], y as [|b|]; simpl;
    try (left; exact I); try (right; exact (fun f => f)).
  apply Rlt_dec.
Defined.

Definition fgt (x y : pyfloat) : bool := if flt_dec y x then true else false.

(** ** Strings *)

Fixpoint starts_with (p s : string) : bool :=
  match p, s with
  | EmptyString, _ => true
  | String a p', String b s' => if Ascii.eqb a b then starts_with p' s' else false
  | String _ _, EmptyString => false
  end.

(** [p in s] on two strings. *)
Fixpoint str_in (p s : string) : bool :=
  starts_with p s ||
  match s with
  | EmptyString => false
  | String _ s' => str_in p s'
  end.

Definition ascii_lower (c : ascii) : ascii :=
  let n := nat_of_ascii c in
  if ((65 <=? n)%nat && (n <=? 90)%nat)%bool then ascii_of_nat (n + 32) else c.

Fixpoint lower_ascii (s : string) : string :=
  match s with
  | EmptyString => EmptyString
  | String c s' => String (ascii_lower c) (lower_ascii s')
  end.

(** ** Data *)

(** An entry of [formulae_by_type] in the confirmed-formula database. *)
Record DbFormula : Type := mkDbFormula {
  db_pattern : string;
  db_frequency : Z;
  db_position : string;
  db_semantic_category : option string
}.

(** An entry of a character's pattern list. *)
Record Formula : Type := mkFormula {
  pattern : string;
  original : string;
  ftype : string;
  position : string;
  frequency : Z;
  semantic : string
}.

Record Mention : Type := mkMention {
  character : string;
  line_num : string;
  line : string
}.

Record Profile : Type := mkProfile {
  total_mentions : Z;
  formula_counts : gmap string Z;
  formula_probabilities : gmap string Q
}.

Record Analysis : Type := mkAnalysis {
  mention : Mention;
  detected_formulae : list Formula;
  primary_formula : option Formula;
  atype : string;
  probability : Q;
  surprisal : pyfloat;
  is_deviation : bool
}.

(** The finished analysis as [save_deviation_data] writes it. *)
Record Entry : Type := mkEntry {
  e_line_num : string;
  e_character : string;
  e_line : string;
  e_type : string;
  e_probability : Q;
  e_surprisal : pyfloat;
  e_is_deviation : bool;
  e_detected_formulae : option (list string);
  e_primary_formula : option string
}.

(** The database as [json.load] returns it: per character, the
    [formulae_by_type] object in file order. *)
Definition Database : Type := list (string * list (string * list DbFormula)).

(** [str.lower]. *)
Class StrLower : Type := lower : string -> string.

Definition Qltb (x y : Q) : bool := if Qlt_le_dec x y then true else false.

Section Engine.
Context {L : StrLower}.

(** *** Formula pattern index *)

Definition formula_entry (formula_type : string) (formula : DbFormula) : Formula :=
  {| pattern := lower (db_pattern formula);
     original := db_pattern formula;
     ftype := formula_type;
     position := db_position formula;
     frequency := db_frequency formula;
     semantic := default EmptyString (db_semantic_category formula) |}.

Definition character_patterns (by_type : list (string * list DbFormula)) : list Formula :=
  fold_left
    (fun acc entry =>
       fold_left (fun acc' formula => acc' ++ [formula_entry (fst entry) formula])
                 (snd entry) acc)
    by_type [].

Definition build_formula_patterns (database : Database) : gmap string (list Formula) :=
  fold_left (fun patterns entry => <[fst entry := character_patterns (snd entry)]> patterns)
            database ∅.

(** *** Mention scanner *)

Definition detect_formulae_in_mention (m : Mention)
    (formula_patterns : gmap string (list Formula)) : list Formula :=
  let line_lower := lower (line m) in
  match formula_patterns !! character m with
  | None => []
  | Some formulae =>
      fold_left
        (fun detected formula =>
           if str_in (pattern formula) line_lower then detected ++ [formula] else detected)
        formulae []
  end.

(** *** Expectation model *)

(** [formula_counts[formula['pattern']] += 1] on a [Counter]. *)
Definition counter_incr (counts : gmap string Z) (k : string) : gmap string Z :=
  <[k := default 0 (counts !! k) + 1]> counts.

Definition count_mention (formula_patterns : gmap string (list Formula))
    (counts : gmap string Z) (m : Mention) : gmap string Z :=
  fold_left (fun c formula => counter_incr c (pattern formula))
            (detect_formulae_in_mention m formula_patterns) counts.

Definition count_formulae (formula_patterns : gmap string (list Formula))
    (char_mentions : list Mention) : gmap string Z :=
  fold_left (count_mention formula_patterns) char_mentions ∅.

(** [count / total_mentions if total_mentions > 0 else 0] *)
Definition guarded_ratio (count total : Z) : result Q :=
  if 0 <? total then py_truediv count total else Ok 0%Q.

Definition base_probabilities (counts : gmap string Z) (total : Z) : result (gmap string Q) :=
  map_fold
    (fun pat count acc =>
       probs ← acc; p ← guarded_ratio count total; mret (<[pat := p]> probs))
    (Ok ∅) counts.

Definition mentions_of (mentions : list Mention) (c : string) : list Mention :=
  List.filter (fun m => String.eqb (character m) c) mentions.

Definition character_expectation (mentions : list Mention)
    (formula_patterns : gmap string (list Formula)) (c : string) : result Profile :=
  let char_mentions := mentions_of mentions c in
  let total := Z.of_nat (length char_mentions) in
  let counts := count_formulae formula_patterns char_mentions in
  probs ← base_probabilities counts total;
  mret {| total_mentions := total;
          formula_counts := counts;
          formula_probabilities := probs |}.

Definition calculate_formula_expectations (mentions : list Mention)
    (formula_patterns : gmap string (list Formula)) (database : Database)
    : result (gmap string Profile) :=
  map_fold
    (fun c _ acc =>
       expectations ← acc;
       prof ← character_expectation mentions formula_patterns c;
       mret (<[c := prof]> expectations))
    (Ok ∅) formula_patterns.

(** *** Surprisal scorer *)

Definition calculate_surprisal (p : Q) : result pyfloat :=
  if Qeq_bool p 0 then Ok PInf
  else l ← math_log2 p; mret (Fin (- l)).

(** [calculate_surprisal(p) if p > 0 else float('inf')] *)
Definition guarded_surprisal (p : Q) : result pyfloat :=
  if Qltb 0 p then calculate_surprisal p else Ok PInf.

(** [sum(d.values())] *)
Definition sum_values (d : gmap string Z) : Z :=
  map_fold (fun _ v acc => acc + v) 0 d.

(** [max(detected, key=lambda f: f['frequency'])]: the first of the
    maximal elements, [ValueError] on the empty list. *)
Definition max_by_frequency (detected : list Formula) : result Formula :=
  match detected with
  | [] => Raise ValueError
  | f :: rest =>
      Ok (fold_left (fun best g => if frequency best <? frequency g then g else best)
                    rest f)
  end.

Definition analyze_mention_surprisal (m : Mention)
    (formula_patterns : gmap string (list Formula))
    (expectations : gmap string Profile) : result (option Analysis) :=
  match expectations !! character m with
  | None => Ok None
  | Some prof =>
      let detected := detect_formulae_in_mention m formula_patterns in
      match detected with
      | [] =>
          let total := total_mentions prof in
          let formula_count := sum_values (formula_counts prof) in
          let bare_count := total - formula_count in
          bare_prob ← guarded_ratio bare_count total;
          s ← guarded_surprisal bare_prob;
          mret (Some {| mention := m;
                        detected_formulae := [];
                        primary_formula := None;
                        atype := "bare_mention";
                        probability := bare_prob;
                        surprisal := s;
                        is_deviation := Qltb bare_prob (3 # 10) |})
      | _ :: _ =>
          primary ← max_by_frequency detected;
          let formula_prob :=
            default 0%Q (formula_probabilities prof !! pattern primary) in
          s ← guarded_surprisal formula_prob;
          mret (Some {| mention := m;
                        detected_formulae := detected;
                        primary_formula := Some primary;
                        atype := "formulaic";
                        probability := formula_prob;
                        surprisal := s;
                        is_deviation := Qltb formula_prob (1 # 10) |})
      end
  end.

Definition find_deviations (mentions : list Mention)
    (formula_patterns : gmap string (list Formula))
    (expectations : gmap string Profile) : result (list Analysis) :=
  fold_left
    (fun acc m =>
       analyses ← acc;
       analysis ← analyze_mention_surprisal m formula_patterns expectations;
       mret (match analysis with
             | Some a => analyses ++ [a]
             | None => analyses
             end))
    mentions (Ok []).

End Engine.

(** *** Deviation ranker *)

Section Ranker.
Context {A : Type} (key : A -> pyfloat).

(** [l.sort(key=key, reverse=True)]: the sort is stable, also when
    reversed.  [insert_desc x l] puts [x], which stood before every
    element of [l], in front of the first element that is not greater. *)
Fixpoint insert_desc (x : A) (l : list A) : list A :=
  match l with
  | [] => [x]
  | y :: l' => if fgt (key y) (key x) then y :: insert_desc x l' else x :: y :: l'
  end.

Definition sort_desc (l : list A) : list A := foldr insert_desc [] l.

End Ranker.

Definition default_threshold : pyfloat := Fin 3.

Definition identify_high_surprisal_moments (analyses : list Analysis)
    (surprisal_threshold : pyfloat) : list Analysis :=
  let high_surprisal :=
    List.filter (fun a => fgt (surprisal a) surprisal_threshold) analyses in
  sort_desc surprisal high_surprisal.

(** *** Serialisation *)

Record Output : Type := mkOutput {
  all_analyses : list Entry;
  high_surprisal_count : Z;
  high_surprisal_threshold : pyfloat
}.

(** [s if s != float('inf') else 999] *)
Definition finite_or_999 (s : pyfloat) : pyfloat :=
  match s with
  | PInf => Fin 999
  | _ => s
  end.

Definition serializable (a : Analysis) : result Entry :=
  let entry :=
    {| e_line_num := line_num (mention a);
       e_character := character (mention a);
       e_line := line (mention a);
       e_type := atype a;
       e_probability := probability a;
       e_surprisal := finite_or_999 (surprisal a);
       e_is_deviation := is_deviation a;
       e_detected_formulae := None;
       e_primary_formula := None |} in
  if String.eqb (atype a) "formulaic" then
    match primary_formula a with
    | None => Raise KeyError
    | Some primary =>
        Ok {| e_line_num := e_line_num entry;
              e_character := e_character entry;
              e_line := e_line entry;
              e_type := e_type entry;
              e_probability := e_probability entry;
              e_surprisal := e_surprisal entry;
              e_is_deviation := e_is_deviation entry;
              e_detected_formulae := Some (map original (detected_formulae a));
              e_primary_formula := Some (original primary) |}
    end
  else Ok entry.

(** The data handed to [json.dump]. *)
Definition save_deviation_data (analyses high_surprisal : list Analysis) : result Output :=
  serializable_analyses ←
    fold_left
      (fun acc a => entries ← acc; entry ← serializable a; mret (entries ++ [entry]))
      analyses (Ok []);
  mret {| all_analyses := serializable_analyses;
          high_surprisal_count := Z.of_nat (length high_surprisal);
          high_surprisal_threshold := Fin 3 |}.

(** *** Report *)

(** [d.keys()] on the loaded database: each key once, at the place of its
    first occurrence. *)
Definition dict_keys (database : Database) : list string :=
  fold_left
    (fun keys entry =>
       if existsb (String.eqb (fst entry)) keys then keys else keys ++ [fst entry])
    database [].

(** [len([a for a in analyses if cond(a)])] *)
Definition count_where (cond : Analysis -> bool) (analyses : list Analysis) : Z :=
  Z.of_nat (length (List.filter cond analyses)).

(** [count/total*100] *)
Definition percent (count total : Z) : result Q :=
  q ← py_truediv count total; mret (q * 100)%Q.

(** The numbers of the OVERALL STATISTICS block. *)
Record Statistics : Type := mkStatistics {
  st_total : Z;
  st_formulaic : Z;
  st_bare : Z;
  st_deviations : Z;
  st_formulaic_percent : Q;
  st_bare_percent : Q;
  st_deviations_percent : Q
}.

Definition overall_statistics (analyses : list Analysis) : result Statistics :=
  let total := Z.of_nat (length analyses) in
  let formulaic := count_where (fun a => String.eqb (atype a) "formulaic") analyses in
  let bare := count_where (fun a => String.eqb (atype a) "bare_mention") analyses in
  let deviations := count_where is_deviation analyses in
  formulaic_percent ← percent formulaic total;
  bare_percent ← percent bare total;
  deviations_percent ← percent deviations total;
  mret {| st_total := total;
          st_formulaic := formulaic;
          st_bare := bare;
          st_deviations := deviations;
          st_formulaic_percent := formulaic_percent;
          st_bare_percent := bare_percent;
          st_deviations_percent := deviations_percent |}.

(** One numbered item of the HIGH SURPRISAL MOMENTS block: the analysis it
    prints and, unless it is a bare mention, the primary formula whose
    original text, type and semantic category it prints. *)
Record Moment : Type := mkMoment {
  mo_rank : Z;
  mo_analysis : Analysis;
  mo_formula : option Formula
}.

Definition report_moment (i : Z) (analysis : Analysis) : result Moment :=
  if String.eqb (atype analysis) "bare_mention" then
    Ok {| mo_rank := i; mo_analysis := analysis; mo_formula := None |}
  else
    match primary_formula analysis with
    | None => Raise KeyError
    | Some primary =>
        Ok {| mo_rank := i; mo_analysis := analysis; mo_formula := Some primary |}
    end.

(** [enumerate(l, i)] *)
Fixpoint enumerate {A : Type} (i : Z) (l : list A) : list (Z * A) :=
  match l with
  | [] => []
  | x :: l' => (i, x) :: enumerate (i + 1) l'
  end.

Definition report_moments (high_surprisal : list Analysis) : result (list Moment) :=
  fold_left
    (fun acc item =>
       moments ← acc;
       moment ← report_moment (fst item) (snd item);
       mret (moments ++ [moment]))
    (enumerate 1 (firstn 50 high_surprisal)) (Ok []).

(** One entry of the DEVIATIONS BY CHARACTER block. *)
Record CharacterSection : Type := mkCharacterSection {
  cs_character : string;
  cs_total : Z;
  cs_deviations : Z;
  cs_deviations_percent : Q;
  cs_most_surprising : list Analysis
}.

Definition character_section (analyses : list Analysis) (c : string)
    : result (option CharacterSection) :=
  let char_analyses :=
    List.filter (fun a => String.eqb (character (mention a)) c) analyses in
  let char_deviations := List.filter is_deviation char_analyses in
  match char_analyses with
  | [] => Ok None
  | _ :: _ =>
      deviations_percent ←
        percent (Z.of_nat (length char_deviations)) (Z.of_nat (length char_analyses));
      let char_high := firstn 3 (sort_desc surprisal char_analyses) in
      mret (Some {| cs_character := c;
                    cs_total := Z.of_nat (length char_analyses);
                    cs_deviations := Z.of_nat (length char_deviations);
                    cs_deviations_percent := deviations_percent;
                    cs_most_surprising := char_high |})
  end.

Definition character_sections (analyses : list Analysis) (database : Database)
    : result (list CharacterSection) :=
  fold_left
    (fun acc c =>
       sections ← acc;
       section ← character_section analyses c;
       mret (match section with
             | Some s => sections ++ [s]
             | None => sections
             end))
    (dict_keys database) (Ok []).

(** What the report shows, block by block; the layout of the text and the
    optional context line of a mention are not represented. *)
Record Report : Type := mkReport {
  rp_statistics : Statistics;
  rp_shown : Z;
  rp_moments : list Moment;
  rp_characters : list CharacterSection
}.

Definition generate_deviation_report (analyses high_surprisal : list Analysis)
    (database : Database) : result Report :=
  statistics ← overall_statistics analyses;
  moments ← report_moments high_surprisal;
  sections ← character_sections analyses database;
  mret {| rp_statistics := statistics;
          rp_shown := Z.min 50 (Z.of_nat (length high_surprisal));
          rp_moments := moments;
          rp_characters := sections |}.

(** *** The whole run *)

Section Run.
Context {L : StrLower}.

(** The script body, from the loaded database and mentions to the report
    and the saved data. *)
Definition main (database : Database) (mentions : list Mention)
    : result (Report * Output) :=
  let formula_patterns := build_formula_patterns database in
  expectations ← calculate_formula_expectations mentions formula_patterns database;
  analyses ← find_deviations mentions formula_patterns expectations;
  let high_surprisal := identify_high_surprisal_moments analyses (Fin 3) in
  report ← generate_deviation_report analyses high_surprisal database;
  data ← save_deviation_data analyses high_surprisal;
  mret (report, data).

End Run.

(** ** Vocabulary of the statements *)

(** [p] occurs in [s] as a contiguous run of characters. *)
Definition is_substring (p s : string) : Prop :=
  exists a b, s = String.append a (String.append p b).

(** [count / total] under the guard of the engine, as a total function. *)
Definition ratio (count total : Z) : Q :=
  if 0 <? total then (Qmake count 1 / Qmake total 1)%Q else 0%Q.


(** Every entry of a counter has been incremented at least once. *)
Definition positive_counts (counts : gmap string Z) : Prop :=
  forall p v, counts !! p = Some v -> 0 < v.

Section ExpectationVocabulary.
Context {L : StrLower}.

(** The number of detected records of mention [m] that bear pattern [p]. *)
Definition detections (fp : gmap string (list Formula)) (p : string) (m : Mention) : Z :=
  Z.of_nat (length (List.filter (fun f => String.eqb (pattern f) p)
                                (detect_formulae_in_mention m fp))).

Definition total_detections (fp : gmap string (list Formula)) (p : string)
    (ms : list Mention) : Z :=
  fold_right (fun m acc => detections fp p m + acc) 0 ms.

(** Pattern [p] is detected in mention [m]. *)
Definition detected_in (fp : gmap string (list Formula)) (p : string) (m : Mention) : bool :=
  existsb (fun f => String.eqb (pattern f) p) (detect_formulae_in_mention m fp).

(** The number of mentions among [ms] in which pattern [p] is detected. *)
Definition mentions_with (fp : gmap string (list Formula)) (p : string)
    (ms : list Mention) : Z :=
  Z.of_nat (length (List.filter (detected_in fp p) ms)).

(** The number of detected records over all of [ms]. *)
Definition all_detections (fp : gmap string (list Formula)) (ms : list Mention) : Z :=
  fold_right (fun m acc => Z.of_nat (length (detect_formulae_in_mention m fp)) + acc) 0 ms.

(** The profile of character [c], written without the loops. *)
Definition profile_of (mentions : list Mention) (fp : gmap string (list Formula))
    (c : string) : Profile :=
  let total := Z.of_nat (length (mentions_of mentions c)) in
  let counts := count_formulae fp (mentions_of mentions c) in
  {| total_mentions := total;
     formula_counts := counts;
     formula_probabilities := (fun count => ratio count total) <$> counts |}.

End ExpectationVocabulary.

(** The mention's character has an expectation profile. *)
Definition has_profile (ex : gmap string Profile) (m : Mention) : bool :=
  match ex !! character m with
  | Some _ => true
  | None => false
  end.

Definition pyfloat_eq_dec (x y : pyfloat) : {x = y} + {x <> y}.
Proof.
  destruct x as [|a|], y as [|b|]; try (by left); try (by right).
  destruct (Req_dec_T a b) as [->|Hne]; [by left | right; congruence].
Defined.

(** The entries of a list that have surprisal [v], in the order of the list. *)
Definition with_surprisal (v : pyfloat) (l : list Analysis) : list Analysis :=
  List.filter (fun a => if pyfloat_eq_dec (surprisal a) v then true else false) l.


(** ** Example data *)

(** ASCII lower-casing as the [str.lower] of the examples. *)
Definition beta_code : StrLower := lower_ascii.

(** Achilles with four confirmed formulae, one of them the sequence of two
    others. *)
Definition achilles_db : Database :=
  [("Achilles"%string,
    [("epithet"%string,
      [mkDbFormula "poda/rkhs" 12 "before" (Some "character epithet"%string);
       mkDbFormula "Di=os" 30 "before" None]);
     ("patronymic"%string,
      [mkDbFormula "*phlhi+a/dew" 30 "after" None]);
     ("half_line"%string,
      [mkDbFormula "poda/rkhs di=os" 9 "before" None])])].

Definition achilles_index : gmap string (list Formula) :=
  @build_formula_patterns beta_code achilles_db.

Definition mention_wrath : Mention :=
  mkMention "Achilles" "1" "mh=nin a)/eide qea\ *phlhi+a/dew *)axilh=os".

(** A mention in which three patterns of [achilles_index] occur together. *)
Definition mention_swift : Mention :=
  mkMention "Achilles" "58" "toi=si d' a)nista/menos mete/fh poda/rkhs di=os *)axilleu/s".

(** Two of the records that [achilles_index] holds. *)
Definition swift_epithet : Formula :=
  @formula_entry beta_code "epithet"
    (mkDbFormula "poda/rkhs" 12 "before" (Some "character epithet"%string)).

Definition swift_half_line : Formula :=
  @formula_entry beta_code "half_line" (mkDbFormula "poda/rkhs di=os" 9 "before" None).

(** A mention in which none occurs. *)
Definition mention_plain : Mention :=
  mkMention "Achilles" "131" "mh\ d' ou(/tws a)gaqo/s per e)w\n qeoei/kel' *)axilleu=".

(** A mention of a character that the index does not know. *)
Definition mention_unknown : Mention :=
  mkMention "Nestor" "247" "toi=si de\ *ne/stwr".

Definition achilles_mentions : list Mention := [mention_swift; mention_plain].

Definition achilles_expectations : gmap string Profile :=
  {[ "Achilles"%string := @profile_of beta_code achilles_mentions achilles_index "Achilles" ]}.

(** The analysis of [mention_plain] against [achilles_expectations]. *)
Definition plain_analysis : Analysis :=
  {| mention := mention_plain;
     detected_formulae := [];
     primary_formula := None;
     atype := "bare_mention";
     probability := (-1 # 2)%Q;
     surprisal := PInf;
     is_deviation := true |}.

(** Zeus with the bigram [di=os] confirmed twice, once as a pattern before
    the name and once as a pattern after it. *)
Definition zeus_db : Database :=
  [("Zeus"%string,
    [("epithet"%string,
      [mkDbFormula "di=os" 7 "before" (Some "character epithet"%string);
       mkDbFormula "di=os" 5 "after" (Some "character epithet"%string)])])].

Definition zeus_index : gmap string (list Formula) :=
  @build_formula_patterns beta_code zeus_db.

Definition zeus_mentions : list Mention :=
  [mkMention "Zeus" "544" "th\n d' h)mei/bet' e)/peita di=os *zeu/s"].

(** Hector with a single pattern, found in one of his two mentions. *)
Definition hector_db : Database :=
  [("Hector"%string,
    [("epithet"%string, [mkDbFormula "koruqai/olos" 8 "before" None])])].

Definition hector_index : gmap string (list Formula) :=
  @build_formula_patterns beta_code hector_db.

Definition hector_mentions : list Mention :=
  [mkMention "Hector" "242" "eu)=t' a)\n polloi\ u(f' *(/ektoros a)ndrofo/noio";
   mkMention "Hector" "263" "to\n d' h)mei/bet' e)/peita me/gas koruqai/olos *(/ektwr"].

(** The two mentions of [hector_mentions]. *)
Definition hector_plain : Mention :=
  mkMention "Hector" "242" "eu)=t' a)\n polloi\ u(f' *(/ektoros a)ndrofo/noio".

Definition hector_crest : Mention :=
  mkMention "Hector" "263" "to\n d' h)mei/bet' e)/peita me/gas koruqai/olos *(/ektwr".

Definition hector_expectations : gmap string Profile :=
  {[ "Hector"%string := @profile_of beta_code hector_mentions hector_index "Hector" ]}.

(** The record of [hector_index], and a profile in which its pattern is
    rare. *)
Definition crest_formula : Formula :=
  @formula_entry beta_code "epithet" (mkDbFormula "koruqai/olos" 8 "before" None).

Definition rare_profile : Profile :=
  {| total_mentions := 20;
     formula_counts := {[ "koruqai/olos"%string := 1 ]};
     formula_probabilities := {[ "koruqai/olos"%string := (1 # 20)%Q ]} |}.

Definition rare_expectations : gmap string Profile :=
  {[ "Hector"%string := rare_profile ]}.

(** An analysis with a given surprisal, as the ranker and the writer
    receive it. *)
Definition scored (num : string) (s : pyfloat) : Analysis :=
  {| mention := mkMention "Achilles" num "*)axilleu/s";
     detected_formulae := [];
     primary_formula := None;
     atype := "bare_mention";
     probability := 0%Q;
     surprisal := s;
     is_deviation := true |}.

(** * Properties *)

(** ** Surprisal *)

Lemma Q2R_pos (p : Q) : (0 < p)%Q -> (0 < Q2R p)%R.
Proof. intros H. rewrite <- RMicromega.Q2R_0. by apply Qreals.Qlt_Rlt. Qed.

Lemma ln_2_pos : (0 < ln 2)%R.
Proof. rewrite <- ln_1. apply ln_increasing; lra. Qed.

Lemma log2_1 : log2 1 = 0%R.
Proof. unfold log2. rewrite ln_1. unfold Rdiv. ring. Qed.

Lemma log2_increasing (x y : R) : (0 < x)%R -> (x < y)%R -> (log2 x < log2 y)%R.
Proof.
  intros Hx Hxy. unfold log2, Rdiv.
  apply Rmult_lt_compat_r.
  - apply Rinv_0_lt_compat, ln_2_pos.
  - by apply ln_increasing.
Qed.

Lemma Qeq_bool_pos (p : Q) : (0 < p)%Q -> Qeq_bool p 0 = false.
Proof.
  intros H. destruct (Qeq_bool p 0) eqn:E; [|done].
  apply Qeq_bool_eq in E. rewrite E in H. by apply Qlt_irrefl in H.
Qed.

Lemma calculate_surprisal_pos (p : Q) :
  (0 < p)%Q -> calculate_surprisal p = Ok (Fin (- log2 (Q2R p))).
Proof.
  intros H. unfold calculate_surprisal, math_log2.
  rewrite Qeq_bool_pos by done.
  destruct (Qlt_le_dec 0 p) as [_|Hle]; [done|].
  exfalso. eapply Qlt_irrefl, Qlt_le_trans; eauto.
Qed.

Lemma calculate_surprisal_zero (p : Q) : (p == 0)%Q -> calculate_surprisal p = Ok PInf.
Proof.
  intros H. unfold calculate_surprisal.
  by rewrite (proj2 (Qeq_bool_iff p 0) H).
Qed.

Lemma calculate_surprisal_neg (p : Q) :
  (p < 0)%Q -> calculate_surprisal p = Raise ValueError.
Proof.
  intros H. unfold calculate_surprisal, math_log2.
  destruct (Qeq_bool p 0) eqn:E.
  - apply Qeq_bool_eq in E. rewrite E in H. by apply Qlt_irrefl in H.
  - destruct (Qlt_le_dec 0 p) as [Hp|_]; [|done].
    exfalso. eapply Qlt_irrefl, Qlt_trans; eauto.
Qed.



(** ** Mention scanner *)

Lemma append_cons (c : ascii) (a b : string) :
  String.append (String c a) b = String c (String.append a b).
Proof. reflexivity. Qed.

Lemma starts_with_spec (p s : string) :
  starts_with p s = true <-> exists b, s = String.append p b.
Proof.
  revert s. induction p as [|a p IH]; intros s; simpl.
  - split; [intros _; by exists s | done].
  - destruct s as [|b s].
    + split; [done | intros [? ?]; discriminate].
    + destruct (Ascii.eqb a b) eqn:E.
      * apply Ascii.eqb_eq in E as ->. rewrite IH.
        split; intros [t Ht]; exists t; rewrite append_cons in *; congruence.
      * apply Ascii.eqb_neq in E.
        split; [done | intros [t Ht]; rewrite append_cons in Ht; congruence].
Qed.

Lemma str_in_spec (p s : string) : str_in p s = true <-> is_substring p s.
Proof.
  induction s as [|c s IH]; simpl.
  - rewrite orb_false_r, starts_with_spec. unfold is_substring. split.
    + intros [b Hb]. by exists EmptyString, b.
    + intros (a & b & H). destruct a; [by exists b | by rewrite append_cons in H].
  - rewrite orb_true_iff, starts_with_spec, IH. unfold is_substring. split.
    + intros [[b Hb] | (a & b & H)].
      * by exists EmptyString, b.
      * exists (String c a), b. by rewrite append_cons, H.
    + intros (a & b & H). destruct a as [|c' a].
      * left. by exists b.
      * right. exists a, b. rewrite append_cons in H. congruence.
Qed.

Lemma fold_left_append_if {A : Type} (P : A -> bool) (l init : list A) :
  fold_left (fun acc x => if P x then acc ++ [x] else acc) l init
  = init ++ List.filter P l.
Proof.
  revert init. induction l as [|x l IH]; intros init; simpl.
  - by rewrite app_nil_r.
  - rewrite IH. destruct (P x); [|done]. by rewrite <- app_assoc.
Qed.

Section ScannerFacts.
Context {L : StrLower}.

Lemma detect_formulae_in_mention_filter (m : Mention)
    (fp : gmap string (list Formula)) :
  detect_formulae_in_mention m fp
  = List.filter (fun f => str_in (pattern f) (lower (line m)))
                (default [] (fp !! character m)).
Proof.
  unfold detect_formulae_in_mention.
  destruct (fp !! character m) as [fs|]; simpl; [|done].
  by rewrite fold_left_append_if.
Qed.

Lemma character_patterns_lowered (by_type : list (string * list DbFormula)) (f : Formula) :
  In f (character_patterns by_type) -> pattern f = lower (original f).
Proof.
  unfold character_patterns.
  assert (Hinner : forall ty fs acc,
    (forall g, In g acc -> pattern g = lower (original g)) ->
    forall g, In g (fold_left (fun acc' formula => acc' ++ [formula_entry ty formula]) fs acc) ->
      pattern g = lower (original g)).
  { intros ty fs. induction fs as [|d fs IH]; intros acc Hacc g; simpl; [by apply Hacc|].
    apply IH. intros g' [Hg'|[<-|[]]]%in_app_or; [by apply Hacc | done]. }
  assert (Houter : forall acc,
    (forall g, In g acc -> pattern g = lower (original g)) ->
    forall g, In g (fold_left
        (fun acc0 entry =>
           fold_left (fun acc' formula => acc' ++ [formula_entry (fst entry) formula])
                     (snd entry) acc0) by_type acc) ->
      pattern g = lower (original g)).
  { induction by_type as [|e by_type IH]; intros acc Hacc g; simpl; [by apply Hacc|].
    apply IH. by apply Hinner. }
  apply Houter. intros g [].
Qed.

Lemma build_formula_patterns_lowered (database : Database) (c : string)
    (fs : list Formula) (f : Formula) :
  build_formula_patterns database !! c = Some fs -> In f fs ->
  pattern f = lower (original f).
Proof.
  unfold build_formula_patterns.
  assert (H : forall acc : gmap string (list Formula),
    (forall c fs f, acc !! c = Some fs -> In f fs -> pattern f = lower (original f)) ->
    forall c fs f,
      fold_left (fun patterns entry =>
                   <[fst entry := character_patterns (snd entry)]> patterns)
                database acc !! c = Some fs ->
      In f fs -> pattern f = lower (original f)).
  { induction database as [|e database IH]; intros acc Hacc; simpl; [done|].
    apply IH. intros c' fs' f'. rewrite lookup_insert. case_decide.
    - intros [= <-]. apply character_patterns_lowered.
    - apply Hacc. }
  apply H. intros c' fs' f'. by rewrite lookup_empty.
Qed.

(** C9: the scanner returns, in index order, exactly the character's
    records whose (lower-cased) pattern occurs as a literal substring in
    the lower-cased line, and the empty list for a character without
    index entry. *)
Theorem detect_formulae_in_mention_spec (m : Mention)
    (fp : gmap string (list Formula)) :
  match fp !! character m with
  | None => detect_formulae_in_mention m fp = []
  | Some formulae =>
      detect_formulae_in_mention m fp
      = List.filter (fun f => str_in (pattern f) (lower (line m))) formulae
      /\ (forall f, In f (detect_formulae_in_mention m fp) <->
                    In f formulae /\ is_substring (pattern f) (lower (line m)))
      /\ (forall database, fp = build_formula_patterns database ->
          forall f, In f (detect_formulae_in_mention m fp) <->
                    In f formulae /\
                    is_substring (lower (original f)) (lower (line m)))
  end.
Proof.
  rewrite detect_formulae_in_mention_filter.
  destruct (fp !! character m) as [fs|] eqn:E; simpl; [|done].
  assert (Hin : forall f,
    In f (List.filter (fun f => str_in (pattern f) (lower (line m))) fs) <->
    In f fs /\ is_substring (pattern f) (lower (line m))).
  { intros f. by rewrite filter_In, str_in_spec. }
  split; [done|]. split; [done|].
  intros database -> f. rewrite Hin.
  split; intros [Hf Hs]; (split; [done|]);
    by rewrite (build_formula_patterns_lowered _ _ _ _ E Hf) in *.
Qed.

End ScannerFacts.

(** Containment is not word matching: the pattern [di=os] of the index is
    found in the line of [mention_swift] and so is [os] in [di=os]. *)
Example detect_swift :
  map original (@detect_formulae_in_mention beta_code mention_swift achilles_index)
  = ["poda/rkhs"; "Di=os"; "poda/rkhs di=os"]%string
  /\ @detect_formulae_in_mention beta_code mention_unknown achilles_index = []
  /\ str_in "os" "di=os" = true.
Proof. vm_compute. done. Qed.

Lemma detect_formulae_in_mention_spec_witness :
  @detect_formulae_in_mention beta_code mention_wrath achilles_index
  = List.filter (fun f => str_in (pattern f) (lower_ascii (line mention_wrath)))
                (default [] (achilles_index !! "Achilles"%string)).
Proof.
  pose proof (@detect_formulae_in_mention_spec beta_code mention_wrath achilles_index) as H.
  change (achilles_index !! character mention_wrath)
    with (achilles_index !! "Achilles"%string) in H.
  destruct (achilles_index !! "Achilles"%string) as [fs|].
  - exact (proj1 H).
  - exact H.
Defined.

(** ** Scoring a single mention *)

Lemma Qltb_lt (x y : Q) : Qltb x y = true <-> (x < y)%Q.
Proof.
  unfold Qltb. destruct (Qlt_le_dec x y) as [H|H]; split; try done.
  intros H'. exfalso. eapply Qlt_irrefl, Qlt_le_trans; eauto.
Qed.

Lemma Qltb_ge (x y : Q) : Qltb x y = false <-> (y <= x)%Q.
Proof.
  unfold Qltb. destruct (Qlt_le_dec x y) as [H|H]; split; try done.
  intros H'. exfalso. eapply Qlt_irrefl, Qlt_le_trans; eauto.
Qed.

Lemma guarded_ratio_total (count total : Z) :
  guarded_ratio count total
  = Ok (if 0 <? total then (Qmake count 1 / Qmake total 1)%Q else 0%Q).
Proof.
  unfold guarded_ratio, py_truediv.
  destruct (0 <? total) eqn:E; [|done].
  apply Z.ltb_lt in E. by rewrite (proj2 (Z.eqb_neq total 0)) by lia.
Qed.

Lemma guarded_surprisal_total (p : Q) :
  guarded_surprisal p
  = Ok (if Qltb 0 p then Fin (- log2 (Q2R p)) else PInf).
Proof.
  unfold guarded_surprisal. destruct (Qltb 0 p) eqn:E; [|done].
  apply Qltb_lt in E. by apply calculate_surprisal_pos.
Qed.

Lemma fold_max_first (rest before mid : list Formula) (best : Formula) :
  (forall g, In g before -> frequency g < frequency best) ->
  (forall g, In g mid -> frequency g <= frequency best) ->
  let r := fold_left (fun best g => if frequency best <? frequency g then g else best)
                     rest best in
  exists b' a', before ++ best :: mid ++ rest = b' ++ r :: a' /\
    (forall g, In g b' -> frequency g < frequency r) /\
    (forall g, In g a' -> frequency g <= frequency r).
Proof.
  revert before mid best.
  induction rest as [|x rest IH]; intros before mid best Hb Hm; simpl.
  - exists before, mid. by rewrite app_nil_r.
  - destruct (frequency best <? frequency x) eqn:E.
    + apply Z.ltb_lt in E.
      destruct (IH (before ++ best :: mid) [] x) as (b' & a' & Heq & H1 & H2).
      * intros g [Hg|[<-|Hg]]%in_app_or; [specialize (Hb g Hg) | | specialize (Hm g Hg)]; lia.
      * intros g [].
      * exists b', a'. split; [|done]. rewrite <- Heq. simpl.
        by rewrite <- !app_assoc.
    + apply Z.ltb_ge in E.
      destruct (IH before (mid ++ [x]) best) as (b' & a' & Heq & H1 & H2).
      * done.
      * intros g [Hg|[<-|[]]]%in_app_or; [by apply Hm | done].
      * exists b', a'. split; [|done]. rewrite <- Heq.
        by rewrite <- !app_assoc.
Qed.

(** [max] with a key returns the first of the elements with the greatest key. *)
Lemma max_by_frequency_spec (detected : list Formula) :
  detected <> [] ->
  exists primary before after,
    max_by_frequency detected = Ok primary /\
    detected = before ++ primary :: after /\
    (forall g, In g before -> frequency g < frequency primary) /\
    (forall g, In g after -> frequency g <= frequency primary).
Proof.
  destruct detected as [|f rest]; [done|]. intros _.
  destruct (fold_max_first rest [] [] f) as (b' & a' & Heq & H1 & H2);
    [intros g [] | intros g [] |].
  simpl in Heq. eexists _, b', a'. by split.
Qed.

Section ScorerFacts.
Context {L : StrLower}.

(** C3: a mention with a profile and at least one detected formula is
    formulaic; its primary formula is the first detected record of
    greatest corpus frequency, its probability is the profile's entry for
    that pattern (0 when absent), and it is a deviation exactly when the
    probability is below 0.10, so not at 0.10 itself. *)
Theorem analyze_formulaic_spec (m : Mention) (fp : gmap string (list Formula))
    (ex : gmap string Profile) (prof : Profile) :
  ex !! character m = Some prof ->
  detect_formulae_in_mention m fp <> [] ->
  exists a primary before after,
    analyze_mention_surprisal m fp ex = Ok (Some a) /\
    atype a = "formulaic"%string /\
    mention a = m /\
    detected_formulae a = detect_formulae_in_mention m fp /\
    primary_formula a = Some primary /\
    detect_formulae_in_mention m fp = before ++ primary :: after /\
    (forall g, In g before -> frequency g < frequency primary) /\
    (forall g, In g after -> frequency g <= frequency primary) /\
    probability a = default 0%Q (formula_probabilities prof !! pattern primary) /\
    guarded_surprisal (probability a) = Ok (surprisal a) /\
    (is_deviation a = true <-> (probability a < 1 # 10)%Q) /\
    ((probability a == 1 # 10)%Q -> is_deviation a = false).
Proof.
  intros Hprof Hdet.
  destruct (max_by_frequency_spec _ Hdet) as (primary & before & after & Hmax & Heq & Hb & Ha).
  unfold analyze_mention_surprisal. rewrite Hprof.
  destruct (detect_formulae_in_mention m fp) as [|f rest] eqn:E; [done|].
  rewrite Hmax. simpl.
  rewrite guarded_surprisal_total. simpl.
  eexists _, primary, before, after. simpl.
  repeat split; try done.
  - by rewrite guarded_surprisal_total.
  - by apply Qltb_lt.
  - by apply Qltb_lt.
  - intros Hq. apply Qltb_ge. rewrite Hq. apply Qle_refl.
Qed.

(** The analysis of a formulaic mention, written out. *)
Lemma analyze_formulaic_total (m : Mention) (fp : gmap string (list Formula))
    (ex : gmap string Profile) (prof : Profile) (primary : Formula) :
  ex !! character m = Some prof ->
  detect_formulae_in_mention m fp <> [] ->
  max_by_frequency (detect_formulae_in_mention m fp) = Ok primary ->
  let formula_prob := default 0%Q (formula_probabilities prof !! pattern primary) in
  analyze_mention_surprisal m fp ex
  = Ok (Some {| mention := m;
                detected_formulae := detect_formulae_in_mention m fp;
                primary_formula := Some primary;
                atype := "formulaic";
                probability := formula_prob;
                surprisal := if Qltb 0 formula_prob
                             then Fin (- log2 (Q2R formula_prob)) else PInf;
                is_deviation := Qltb formula_prob (1 # 10) |}).
Proof.
  intros Hprof Hdet Hmax. unfold analyze_mention_surprisal. rewrite Hprof.
  destruct (detect_formulae_in_mention m fp) as [|f rest] eqn:E; [done|].
  rewrite Hmax. simpl. by rewrite guarded_surprisal_total.
Qed.

(** Every bare mention gets an analysis: the guards keep the division and
    the logarithm from raising. *)
Lemma analyze_bare_total (m : Mention) (fp : gmap string (list Formula))
    (ex : gmap string Profile) (prof : Profile) :
  ex !! character m = Some prof ->
  detect_formulae_in_mention m fp = [] ->
  let total := total_mentions prof in
  let bare_prob :=
    if 0 <? total
    then (Qmake (total - sum_values (formula_counts prof)) 1 / Qmake total 1)%Q
    else 0%Q in
  analyze_mention_surprisal m fp ex
  = Ok (Some {| mention := m;
                detected_formulae := [];
                primary_formula := None;
                atype := "bare_mention";
                probability := bare_prob;
                surprisal := if Qltb 0 bare_prob
                             then Fin (- log2 (Q2R bare_prob)) else PInf;
                is_deviation := Qltb bare_prob (3 # 10) |}).
Proof.
  intros Hprof Hdet. unfold analyze_mention_surprisal.
  rewrite Hprof, Hdet, guarded_ratio_total. simpl.
  by rewrite guarded_surprisal_total.
Qed.

(** C4, as the code has it: a mention with a profile and no detected
    formula is a bare mention with probability
    [(total - sum of counts) / total] (0 when [total] is not positive); its
    surprisal is [calculate_surprisal] of the probability when that is
    zero or positive, and [+inf] when it is zero or negative; it is a
    deviation exactly when the probability is below 0.30, so not at 0.30
    itself. *)
Theorem analyze_bare_spec (m : Mention) (fp : gmap string (list Formula))
    (ex : gmap string Profile) (prof : Profile) :
  ex !! character m = Some prof ->
  detect_formulae_in_mention m fp = [] ->
  exists a,
    analyze_mention_surprisal m fp ex = Ok (Some a) /\
    atype a = "bare_mention"%string /\
    mention a = m /\
    detected_formulae a = [] /\
    probability a
    = (if 0 <? total_mentions prof
       then (Qmake (total_mentions prof - sum_values (formula_counts prof)) 1
             / Qmake (total_mentions prof) 1)%Q
       else 0%Q) /\
    ((0 <= probability a)%Q ->
       calculate_surprisal (probability a) = Ok (surprisal a)) /\
    ((0 < probability a)%Q ->
       surprisal a = Fin (- log2 (Q2R (probability a)))) /\
    ((probability a <= 0)%Q -> surprisal a = PInf) /\
    (is_deviation a = true <-> (probability a < 3 # 10)%Q) /\
    ((probability a == 3 # 10)%Q -> is_deviation a = false).
Proof.
  intros Hprof Hdet. eexists. split; [by apply analyze_bare_total|]. simpl.
  do 4 (split; [done|]).
  match goal with |- context [Qltb 0 ?x] => generalize x end. intros p.
  destruct (Qltb 0 p) eqn:E; [apply Qltb_lt in E | apply Qltb_ge in E].
  - split; [intros _; by apply calculate_surprisal_pos|]. split; [done|].
    split; [intros Hle; exfalso; eapply Qlt_irrefl, Qlt_le_trans; eauto|].
    split; [apply Qltb_lt|]. intros Hq. apply Qltb_ge. rewrite Hq. apply Qle_refl.
  - split; [intros Hle; apply calculate_surprisal_zero; by apply Qle_antisym|].
    split; [intros Hlt; exfalso; eapply Qlt_irrefl, Qlt_le_trans; eauto|].
    split; [done|].
    split; [apply Qltb_lt|]. intros Hq. apply Qltb_ge. rewrite Hq. apply Qle_refl.
Qed.

End ScorerFacts.

(** ** Expectation model *)

Lemma guarded_ratio_ratio (count total : Z) :
  guarded_ratio count total = Ok (ratio count total).
Proof. apply guarded_ratio_total. Qed.

Lemma base_probabilities_total (counts : gmap string Z) (total : Z) :
  base_probabilities counts total = Ok ((fun count => ratio count total) <$> counts).
Proof.
  unfold base_probabilities.
  apply (map_fold_weak_ind
    (fun r (m : gmap string Z) => r = Ok ((fun count => ratio count total) <$> m))).
  - by rewrite fmap_empty.
  - intros pat count m r _ ->. simpl.
    by rewrite guarded_ratio_ratio, fmap_insert.
Qed.

Lemma lookup_counter_incr (counts : gmap string Z) (k p : string) :
  default 0 (counter_incr counts k !! p)
  = default 0 (counts !! p) + (if String.eqb k p then 1 else 0).
Proof.
  unfold counter_incr. rewrite lookup_insert.
  destruct (String.eqb_spec k p) as [->|Hne].
  - by rewrite decide_True.
  - rewrite decide_False by done. lia.
Qed.

Lemma sum_values_insert (d : gmap string Z) (k : string) (v : Z) :
  d !! k = None -> sum_values (<[k := v]> d) = sum_values d + v.
Proof.
  intros Hk. unfold sum_values.
  rewrite map_fold_insert_L; [done | intros; lia | done].
Qed.

Lemma sum_values_counter_incr (counts : gmap string Z) (k : string) :
  sum_values (counter_incr counts k) = sum_values counts + 1.
Proof.
  unfold counter_incr. destruct (counts !! k) as [v|] eqn:E; simpl.
  - rewrite <- (insert_delete_eq counts k (v + 1)).
    assert (Hc : sum_values counts = sum_values (<[k := v]> (delete k counts)))
      by (by rewrite insert_delete_id).
    rewrite Hc, !sum_values_insert by apply lookup_delete_eq. lia.
  - rewrite sum_values_insert by done. lia.
Qed.

Lemma positive_counter_incr (counts : gmap string Z) (k : string) :
  positive_counts counts -> positive_counts (counter_incr counts k).
Proof.
  intros H p v. unfold counter_incr. rewrite lookup_insert. case_decide.
  - intros [= <-]. destruct (counts !! k) as [w|] eqn:E; simpl; [|lia].
    specialize (H _ _ E). lia.
  - apply H.
Qed.

Section ExpectationFacts.
Context {L : StrLower}.

Lemma count_records_lookup (l : list Formula) (c : gmap string Z) (p : string) :
  default 0 (fold_left (fun c formula => counter_incr c (pattern formula)) l c !! p)
  = default 0 (c !! p)
    + Z.of_nat (length (List.filter (fun f => String.eqb (pattern f) p) l)).
Proof.
  revert c. induction l as [|f l IH]; intros c; simpl; [lia|].
  rewrite IH, lookup_counter_incr.
  destruct (String.eqb (pattern f) p); simpl length; lia.
Qed.

Lemma count_records_sum (l : list Formula) (c : gmap string Z) :
  sum_values (fold_left (fun c formula => counter_incr c (pattern formula)) l c)
  = sum_values c + Z.of_nat (length l).
Proof.
  revert c. induction l as [|f l IH]; intros c; simpl length; simpl fold_left; [lia|].
  rewrite IH, sum_values_counter_incr. lia.
Qed.

Lemma count_records_positive (l : list Formula) (c : gmap string Z) :
  positive_counts c ->
  positive_counts (fold_left (fun c formula => counter_incr c (pattern formula)) l c).
Proof.
  revert c. induction l as [|f l IH]; intros c Hc; simpl; [done|].
  by apply IH, positive_counter_incr.
Qed.

Lemma count_mentions_lookup (fp : gmap string (list Formula)) (ms : list Mention)
    (c : gmap string Z) (p : string) :
  default 0 (fold_left (count_mention fp) ms c !! p)
  = default 0 (c !! p) + total_detections fp p ms.
Proof.
  revert c. induction ms as [|m ms IH]; intros c; simpl; [lia|].
  rewrite IH. unfold count_mention. rewrite count_records_lookup.
  unfold detections. lia.
Qed.

Lemma count_mentions_sum (fp : gmap string (list Formula)) (ms : list Mention)
    (c : gmap string Z) :
  sum_values (fold_left (count_mention fp) ms c) = sum_values c + all_detections fp ms.
Proof.
  revert c. induction ms as [|m ms IH]; intros c; simpl; [lia|].
  rewrite IH. unfold count_mention. rewrite count_records_sum. lia.
Qed.

Lemma count_mentions_positive (fp : gmap string (list Formula)) (ms : list Mention)
    (c : gmap string Z) :
  positive_counts c -> positive_counts (fold_left (count_mention fp) ms c).
Proof.
  revert c. induction ms as [|m ms IH]; intros c Hc; simpl; [done|].
  by apply IH, count_records_positive.
Qed.

Lemma total_detections_nonneg (fp : gmap string (list Formula)) (p : string)
    (ms : list Mention) :
  0 <= total_detections fp p ms.
Proof. induction ms; simpl; unfold detections in *; lia. Qed.

(** The counter holds, for each pattern, the number of detected records
    bearing it, and no entry for a pattern that was never detected. *)
Lemma count_formulae_lookup (fp : gmap string (list Formula)) (ms : list Mention)
    (p : string) :
  count_formulae fp ms !! p
  = if 0 <? total_detections fp p ms then Some (total_detections fp p ms) else None.
Proof.
  pose proof (count_mentions_lookup fp ms ∅ p) as Hl.
  pose proof (count_mentions_positive fp ms ∅) as Hp.
  pose proof (total_detections_nonneg fp p ms) as Hn.
  rewrite lookup_empty in Hl. simpl in Hl. fold (count_formulae fp ms) in Hl, Hp.
  destruct (count_formulae fp ms !! p) as [v|] eqn:E; simpl in Hl.
  - assert (0 < v) by (eapply Hp; [by intros ? ?; rewrite lookup_empty | done]).
    assert (Ht : total_detections fp p ms = v) by lia.
    by rewrite Ht, (proj2 (Z.ltb_lt 0 v)).
  - assert (Ht : total_detections fp p ms = 0) by lia. by rewrite Ht.
Qed.

Lemma count_formulae_sum (fp : gmap string (list Formula)) (ms : list Mention) :
  sum_values (count_formulae fp ms) = all_detections fp ms.
Proof.
  unfold count_formulae. rewrite count_mentions_sum.
  unfold sum_values at 1. by rewrite map_fold_empty.
Qed.

Lemma character_expectation_total (mentions : list Mention)
    (fp : gmap string (list Formula)) (c : string) :
  character_expectation mentions fp c = Ok (profile_of mentions fp c).
Proof.
  unfold character_expectation. by rewrite base_probabilities_total.
Qed.

(** The expectation model never raises: there is one profile per
    character of the index, and nothing else. *)
Lemma calculate_formula_expectations_total (mentions : list Mention)
    (fp : gmap string (list Formula)) (database : Database) :
  exists ex, calculate_formula_expectations mentions fp database = Ok ex /\
    forall c, ex !! c = (fun _ => profile_of mentions fp c) <$> fp !! c.
Proof.
  unfold calculate_formula_expectations.
  apply (map_fold_weak_ind
    (fun r (m : gmap string (list Formula)) =>
       exists ex, r = Ok ex /\
         forall c, ex !! c = (fun _ => profile_of mentions fp c) <$> m !! c)).
  - exists ∅. split; [done|]. intros c. by rewrite !lookup_empty.
  - intros c fs m r Hc (ex & -> & Hex). simpl.
    rewrite character_expectation_total. simpl.
    eexists. split; [done|]. intros c'. rewrite !lookup_insert.
    case_decide; [by subst | apply Hex].
Qed.

Lemma mentions_of_character (mentions : list Mention) (c : string) (m : Mention) :
  In m (mentions_of mentions c) -> character m = c.
Proof.
  unfold mentions_of. rewrite filter_In. intros [_ H]. by apply String.eqb_eq.
Qed.

Lemma filter_pattern_nodup (l : list Formula) (p : string) :
  NoDup (map pattern l) ->
  Z.of_nat (length (List.filter (fun f => String.eqb (pattern f) p) l))
  = if existsb (fun f => String.eqb (pattern f) p) l then 1 else 0.
Proof.
  induction l as [|f l IH]; simpl; [done|].
  intros [Hnotin Hnd]%NoDup_cons. specialize (IH Hnd).
  destruct (String.eqb_spec (pattern f) p) as [Heq|Hne]; simpl; [|done].
  destruct (existsb (fun f => String.eqb (pattern f) p) l) eqn:E.
  - apply existsb_exists in E as (g & Hg & Hgp%String.eqb_eq).
    exfalso. apply Hnotin. apply list_elem_of_In, in_map_iff.
    exists g. split; [congruence | done].
  - lia.
Qed.

Lemma nodup_map_filter {A B : Type} (f : A -> B) (P : A -> bool) (l : list A) :
  NoDup (map f l) -> NoDup (map f (List.filter P l)).
Proof.
  induction l as [|x l IH]; simpl; [done|].
  intros [Hnotin Hnd]%NoDup_cons. destruct (P x); simpl; [|by apply IH].
  apply NoDup_cons. split; [|by apply IH].
  intros Hin. apply Hnotin. apply list_elem_of_In in Hin. apply list_elem_of_In.
  apply in_map_iff in Hin as (y & Hy & Hin). apply filter_In in Hin as [Hin _].
  apply in_map_iff. by exists y.
Qed.

Lemma detections_nodup (fp : gmap string (list Formula)) (p : string) (m : Mention) :
  NoDup (map pattern (default [] (fp !! character m))) ->
  detections fp p m = if detected_in fp p m then 1 else 0.
Proof.
  intros Hnd. unfold detections, detected_in.
  apply filter_pattern_nodup.
  rewrite detect_formulae_in_mention_filter. by apply nodup_map_filter.
Qed.

Lemma total_detections_nodup (fp : gmap string (list Formula)) (p c : string)
    (ms : list Mention) :
  NoDup (map pattern (default [] (fp !! c))) ->
  (forall m, In m ms -> character m = c) ->
  total_detections fp p ms = mentions_with fp p ms.
Proof.
  intros Hnd. unfold mentions_with.
  induction ms as [|m ms IH]; intros Hc; simpl; [done|].
  rewrite IH by (intros; apply Hc; by right).
  rewrite detections_nodup by (rewrite (Hc m) by (by left); done).
  destruct (detected_in fp p m); simpl length; lia.
Qed.

End ExpectationFacts.



Lemma ratio_le_1 (k n : Z) : k <= n -> (ratio k n <= 1)%Q.
Proof.
  intros Hk. unfold ratio. destruct (0 <? n) eqn:E; [|done].
  apply Z.ltb_lt in E. apply Qle_shift_div_r.
  - unfold Qlt. simpl. lia.
  - unfold Qle. simpl. lia.
Qed.

Lemma ratio_pos (k n : Z) : 0 < n -> ratio k n = (Qmake k 1 / Qmake n 1)%Q.
Proof. intros H. unfold ratio. by rewrite (proj2 (Z.ltb_lt 0 n)). Qed.


Section ExpectationClaims.
Context {L : StrLower}.

Lemma all_detections_le (fp : gmap string (list Formula)) (ms : list Mention) :
  (forall m, In m ms -> (length (detect_formulae_in_mention m fp) <= 1)%nat) ->
  all_detections fp ms <= Z.of_nat (length ms).
Proof.
  induction ms as [|m ms IH]; intros H; simpl; [done|].
  specialize (IH (fun m' Hm' => H m' (or_intror Hm'))).
  specialize (H m (or_introl eq_refl)). lia.
Qed.

(** On an index whose records for the character bear pairwise distinct
    patterns, the probability of a pattern is the share of the character's
    mentions in which it is detected; a pattern detected nowhere has no
    entry; nothing raises, whatever the number of mentions. *)
Theorem formula_probabilities_distinct (mentions : list Mention)
    (fp : gmap string (list Formula)) (database : Database)
    (c : string) (formulae : list Formula) :
  fp !! c = Some formulae ->
  NoDup (map pattern formulae) ->
  exists ex prof,
    calculate_formula_expectations mentions fp database = Ok ex /\
    ex !! c = Some prof /\
    total_mentions prof = Z.of_nat (length (mentions_of mentions c)) /\
    forall p,
      let k := mentions_with fp p (mentions_of mentions c) in
      formula_probabilities prof !! p
      = if 0 <? k then Some (ratio k (total_mentions prof)) else None.
Proof.
  intros Hc Hnd.
  destruct (calculate_formula_expectations_total mentions fp database) as (ex & Hex & Hl).
  exists ex, (profile_of mentions fp c).
  split; [done|]. split; [by rewrite Hl, Hc|]. split; [done|].
  intros p k. simpl. rewrite lookup_fmap, count_formulae_lookup.
  rewrite (total_detections_nodup fp p c).
  - fold k. by destruct (0 <? k).
  - by rewrite Hc.
  - apply mentions_of_character.
Qed.

(** A character without mentions has an empty counter and an empty
    probability table: no entry is computed, and no division attempted. *)
Lemma profile_without_mentions (mentions : list Mention)
    (fp : gmap string (list Formula)) (c : string) :
  mentions_of mentions c = [] ->
  profile_of mentions fp c
  = {| total_mentions := 0; formula_counts := ∅; formula_probabilities := ∅ |}.
Proof.
  intros H. unfold profile_of. rewrite H. simpl.
  unfold count_formulae. simpl. by rewrite fmap_empty.
Qed.


End ExpectationClaims.

(** C2 at an index that lists one pattern twice: the single mention of Zeus
    has the pattern, so it occurs in 1 of 1 mentions, and the profile gives
    it the probability 2. *)
Theorem duplicate_pattern_counted_twice :
  exists ex prof,
    @calculate_formula_expectations beta_code zeus_mentions zeus_index zeus_db = Ok ex /\
    ex !! "Zeus"%string = Some prof /\
    total_mentions prof = 1 /\
    @mentions_with beta_code zeus_index "di=os" zeus_mentions = 1 /\
    formula_probabilities prof !! "di=os"%string = Some (2 # 1)%Q.
Proof.
  destruct (@calculate_formula_expectations_total beta_code
              zeus_mentions zeus_index zeus_db) as (ex & Hex & Hl).
  exists ex, (@profile_of beta_code zeus_mentions zeus_index "Zeus").
  split; [exact Hex|]. split; [rewrite Hl; vm_compute; reflexivity|].
  vm_compute. repeat split.
Qed.

(** ** Analysing all mentions *)

Section DeviationFacts.
Context {L : StrLower}.

(** The analysis of a mention never raises; it is absent exactly for a
    character without profile, and otherwise carries one of the two
    classifications, according to whether a formula was detected. *)
Lemma analyze_mention_surprisal_total (m : Mention) (fp : gmap string (list Formula))
    (ex : gmap string Profile) :
  exists r, analyze_mention_surprisal m fp ex = Ok r /\
    match r with
    | None => has_profile ex m = false
    | Some a =>
        has_profile ex m = true /\ mention a = m /\
        ((atype a = "bare_mention"%string /\ detect_formulae_in_mention m fp = [])
         \/ (atype a = "formulaic"%string /\ detect_formulae_in_mention m fp <> []))
    end.
Proof.
  unfold has_profile.
  destruct (ex !! character m) as [prof|] eqn:Hprof.
  - destruct (detect_formulae_in_mention m fp) as [|f rest] eqn:Hdet.
    + eexists. split; [by apply (analyze_bare_total m fp ex prof)|].
      split; [done|]. split; [done|]. by left.
    + assert (Hne : detect_formulae_in_mention m fp <> []) by (by rewrite Hdet).
      destruct (max_by_frequency_spec _ Hne) as (primary & _ & _ & Hmax & _).
      eexists. split; [by apply (analyze_formulaic_total m fp ex prof primary)|].
      split; [done|]. split; [done|]. right. by rewrite <- Hdet.
  - exists None. unfold analyze_mention_surprisal. by rewrite Hprof.
Qed.

Lemma find_deviations_fold (mentions : list Mention) (fp : gmap string (list Formula))
    (ex : gmap string Profile) (acc : list Analysis) :
  exists analyses,
    fold_left
      (fun acc m =>
         analyses ← acc;
         analysis ← analyze_mention_surprisal m fp ex;
         mret (match analysis with
               | Some a => analyses ++ [a]
               | None => analyses
               end))
      mentions (Ok acc) = Ok (acc ++ analyses) /\
    map mention analyses = List.filter (has_profile ex) mentions /\
    Forall (fun a => analyze_mention_surprisal (mention a) fp ex = Ok (Some a)) analyses.
Proof.
  match goal with |- context [fold_left ?f _ _] => set (step := f) end.
  revert acc. induction mentions as [|m mentions IH]; intros acc.
  - exists []. by rewrite app_nil_r.
  - destruct (analyze_mention_surprisal_total m fp ex) as (r & Hr & Hspec).
    assert (Hstep : step (Ok acc) m
                    = Ok (match r with Some a => acc ++ [a] | None => acc end)).
    { unfold step. simpl. by rewrite Hr. }
    cbn [fold_left List.filter]. rewrite Hstep. destruct r as [a|].
    + destruct Hspec as (Hp & Hm & _). rewrite Hp.
      destruct (IH (acc ++ [a])) as (analyses & Hfold & Hmap & Hall).
      exists (a :: analyses). rewrite Hfold, <- app_assoc. simpl.
      split; [done|]. split; [congruence|].
      constructor; [by rewrite Hm | done].
    + rewrite Hspec. apply IH.
Qed.

(** C7: [find_deviations] never raises; its result holds, in order, one
    analysis for each mention whose character has a profile and none for
    the others; each analysis is that of its mention and is classified as
    exactly one of [bare_mention] and [formulaic]. *)
Theorem find_deviations_spec (mentions : list Mention)
    (fp : gmap string (list Formula)) (ex : gmap string Profile) :
  exists analyses,
    find_deviations mentions fp ex = Ok analyses /\
    map mention analyses = List.filter (has_profile ex) mentions /\
    Forall
      (fun a =>
         analyze_mention_surprisal (mention a) fp ex = Ok (Some a) /\
         ((atype a = "bare_mention"%string /\ atype a <> "formulaic"%string /\
           detect_formulae_in_mention (mention a) fp = [])
          \/ (atype a = "formulaic"%string /\ atype a <> "bare_mention"%string /\
              detect_formulae_in_mention (mention a) fp <> [])))
      analyses.
Proof.
  destruct (find_deviations_fold mentions fp ex []) as (analyses & Hfold & Hmap & Hall).
  exists analyses. split; [done|]. split; [done|].
  eapply Forall_impl; [exact Hall|]. intros a Ha. split; [done|].
  destruct (analyze_mention_surprisal_total (mention a) fp ex) as (r & Hr & Hspec).
  rewrite Ha in Hr. injection Hr as <-.
  destruct Hspec as (_ & _ & [[Hty Hdet]|[Hty Hdet]]); [left | right];
    (split; [done|]); (split; [|done]); by rewrite Hty.
Qed.

(** A bare mention whose probability is zero or negative has surprisal
    [+inf] and is a deviation. *)
Lemma bare_nonpositive (m : Mention) (fp : gmap string (list Formula))
    (ex : gmap string Profile) (a : Analysis) :
  analyze_mention_surprisal m fp ex = Ok (Some a) ->
  atype a = "bare_mention"%string ->
  (probability a <= 0)%Q ->
  surprisal a = PInf /\ is_deviation a = true.
Proof.
  intros Ha Hty Hle.
  destruct (analyze_mention_surprisal_total m fp ex) as (r & Hr & Hspec).
  rewrite Ha in Hr. injection Hr as <-.
  destruct Hspec as (Hp & _ & [[_ Hdet]|[Hty' _]]); [|congruence].
  unfold has_profile in Hp. destruct (ex !! character m) as [prof|] eqn:Hprof; [|done].
  pose proof (analyze_bare_total m fp ex prof Hprof Hdet) as Hbare. cbv zeta in Hbare.
  rewrite Hbare in Ha. injection Ha as <-. simpl in *.
  split.
  - by rewrite (proj2 (Qltb_ge _ _)).
  - apply Qltb_lt. eapply Qle_lt_trans; [exact Hle | reflexivity].
Qed.

End DeviationFacts.

(** C10: co-occurring patterns make the counts of a character add up to
    more than its mentions, so that the bare probability reported for
    [mention_plain] is negative; and whenever the bare probability is zero
    or negative, the surprisal is [+inf] and the mention is a deviation. *)
Theorem bare_probability_negative :
  (exists ex prof a,
     @calculate_formula_expectations beta_code achilles_mentions achilles_index
       achilles_db = Ok ex /\
     ex !! "Achilles"%string = Some prof /\
     total_mentions prof < sum_values (formula_counts prof) /\
     @analyze_mention_surprisal beta_code mention_plain achilles_index ex = Ok (Some a) /\
     atype a = "bare_mention"%string /\
     probability a = (-1 # 2)%Q /\
     (probability a < 0)%Q) /\
  (forall (L : StrLower) m fp ex a,
     analyze_mention_surprisal m fp ex = Ok (Some a) ->
     atype a = "bare_mention"%string ->
     (probability a <= 0)%Q ->
     surprisal a = PInf /\ is_deviation a = true).
Proof.
  split; [|intros L; apply bare_nonpositive].
  destruct (@calculate_formula_expectations_total beta_code
              achilles_mentions achilles_index achilles_db) as (ex & Hex & Hl).
  assert (Hprof : ex !! "Achilles"%string
                  = Some (@profile_of beta_code achilles_mentions achilles_index "Achilles")).
  { rewrite Hl. vm_compute. reflexivity. }
  eexists ex, _, _. split; [exact Hex|]. split; [exact Hprof|].
  split; [vm_compute; reflexivity|].
  split; [apply (@analyze_bare_total beta_code); [exact Hprof | vm_compute; reflexivity]|].
  clear Hex Hl Hprof. vm_compute. repeat split.
Qed.

(** ** Deviation ranker *)

Lemma flt_irrefl (x : pyfloat) : ~ flt x x.
Proof. destruct x; simpl; [tauto | apply Rlt_irrefl | tauto]. Qed.

Lemma flt_trans (x y z : pyfloat) : flt x y -> flt y z -> flt x z.
Proof. destruct x, y, z; simpl; try tauto. apply Rlt_trans. Qed.

Lemma flt_total (x y : pyfloat) : flt x y \/ x = y \/ flt y x.
Proof.
  destruct x as [|a|], y as [|b|]; simpl; auto.
  destruct (Rtotal_order a b) as [H|[->|H]]; auto.
Qed.

Lemma not_flt_trans (x y z : pyfloat) : ~ flt x y -> ~ flt y z -> ~ flt x z.
Proof.
  intros Hxy Hyz Hxz.
  destruct (flt_total x y) as [H|[->|H]]; [done | done |].
  destruct (flt_total y z) as [H'|[->|H']]; [done | done |].
  eapply flt_irrefl, flt_trans; [exact Hxz|]. by eapply flt_trans.
Qed.

Lemma fgt_true (x y : pyfloat) : fgt x y = true <-> flt y x.
Proof. unfold fgt. by destruct (flt_dec y x). Qed.

Lemma fgt_false (x y : pyfloat) : fgt x y = false <-> ~ flt y x.
Proof. unfold fgt. by destruct (flt_dec y x). Qed.

Section RankerFacts.
Context {A : Type} (key : A -> pyfloat).

Lemma insert_desc_perm (x : A) (l : list A) : Permutation (insert_desc key x l) (x :: l).
Proof.
  induction l as [|y l IH]; simpl; [done|].
  destruct (fgt (key y) (key x)); [|done].
  rewrite IH. apply perm_swap.
Qed.

Lemma sort_desc_perm (l : list A) : Permutation (sort_desc key l) l.
Proof.
  induction l as [|x l IH]; simpl; [done|].
  rewrite insert_desc_perm. by constructor.
Qed.

Lemma insert_desc_sorted (x : A) (l : list A) :
  StronglySorted (fun a b => ~ flt (key a) (key b)) l ->
  StronglySorted (fun a b => ~ flt (key a) (key b)) (insert_desc key x l).
Proof.
  induction l as [|y l IH]; intros Hs; simpl.
  - constructor; [constructor | constructor].
  - apply StronglySorted_inv in Hs as [Hs Hy].
    destruct (fgt (key y) (key x)) eqn:E.
    + apply fgt_true in E. constructor; [by apply IH|].
      rewrite Forall_forall. intros z Hz%list_elem_of_In.
      eapply Permutation_in in Hz; [|apply insert_desc_perm].
      destruct Hz as [<-|Hz].
      * intros H. eapply flt_irrefl, flt_trans; eauto.
      * rewrite Forall_forall in Hy. apply Hy. by apply list_elem_of_In.
    + apply fgt_false in E. constructor; [by constructor|].
      constructor; [done|].
      eapply Forall_impl; [exact Hy|]. intros z Hz. simpl in *.
      by eapply not_flt_trans.
Qed.

Lemma sort_desc_sorted (l : list A) :
  StronglySorted (fun a b => ~ flt (key a) (key b)) (sort_desc key l).
Proof.
  induction l as [|x l IH]; simpl; [constructor|]. by apply insert_desc_sorted.
Qed.

(** Stability: the elements of one key keep their order. *)
Lemma insert_desc_stable (v : pyfloat) (x : A) (l : list A) :
  List.filter (fun a => if pyfloat_eq_dec (key a) v then true else false)
              (insert_desc key x l)
  = List.filter (fun a => if pyfloat_eq_dec (key a) v then true else false) (x :: l).
Proof.
  induction l as [|y l IH]; [done|]. cbn [insert_desc].
  destruct (fgt (key y) (key x)) eqn:E; [|done].
  apply fgt_true in E. cbn [List.filter] in *. rewrite IH.
  destruct (pyfloat_eq_dec (key y) v) as [Hy|Hy],
           (pyfloat_eq_dec (key x) v) as [Hx|Hx]; try done.
  exfalso. rewrite Hx, Hy in E. by apply flt_irrefl in E.
Qed.

Lemma sort_desc_stable (v : pyfloat) (l : list A) :
  List.filter (fun a => if pyfloat_eq_dec (key a) v then true else false)
              (sort_desc key l)
  = List.filter (fun a => if pyfloat_eq_dec (key a) v then true else false) l.
Proof.
  induction l as [|x l IH]; [done|]. cbn [sort_desc foldr].
  fold (sort_desc key l). rewrite insert_desc_stable. cbn [List.filter].
  by rewrite IH.
Qed.

End RankerFacts.

Lemma fgt_fin (a b : R) : (b < a)%R -> fgt (Fin a) (Fin b) = true.
Proof. intros H. by apply fgt_true. Qed.

Lemma fgt_fin_not (a b : R) : (a <= b)%R -> fgt (Fin a) (Fin b) = false.
Proof. intros H. apply fgt_false. simpl. lra. Qed.

(** C5: the ranker returns exactly the entries whose surprisal is strictly
    above the threshold, in descending order of surprisal, entries of
    equal surprisal in their input order; surprisals 5, 3, 3, 7 at
    threshold 3 give the entries of 7 and 5, in that order. *)
Theorem identify_high_surprisal_moments_spec (analyses : list Analysis) (t : pyfloat) :
  let high := identify_high_surprisal_moments analyses t in
  Permutation high (List.filter (fun a => fgt (surprisal a) t) analyses) /\
  (forall a, In a high <-> In a analyses /\ flt t (surprisal a)) /\
  StronglySorted (fun a b => ~ flt (surprisal a) (surprisal b)) high /\
  (forall v, with_surprisal v high
             = with_surprisal v (List.filter (fun a => fgt (surprisal a) t) analyses)) /\
  (forall a b c d,
     surprisal a = Fin 5 -> surprisal b = Fin 3 ->
     surprisal c = Fin 3 -> surprisal d = Fin 7 ->
     identify_high_surprisal_moments [a; b; c; d] (Fin 3) = [d; a]).
Proof.
  unfold identify_high_surprisal_moments. cbv zeta.
  split; [apply sort_desc_perm|].
  split.
  { intros a. split.
    - intros H. eapply Permutation_in in H; [|apply sort_desc_perm].
      apply filter_In in H as [H1 H2]. split; [done | by apply fgt_true].
    - intros [H1 H2]. eapply Permutation_in; [symmetry; apply sort_desc_perm|].
      apply filter_In. split; [done | by apply fgt_true]. }
  split; [apply sort_desc_sorted|].
  split; [intros v; apply sort_desc_stable|].
  intros a b c d Ha Hb Hc Hd. cbn [List.filter].
  rewrite Ha, Hb, Hc, Hd.
  rewrite (fgt_fin 5 3), (fgt_fin_not 3 3), (fgt_fin 7 3) by lra.
  cbn [sort_desc foldr insert_desc]. rewrite Ha, Hd.
  by rewrite (fgt_fin 7 5) by lra.
Qed.

Lemma identify_high_surprisal_moments_spec_witness :
  identify_high_surprisal_moments
    [scored "1" (Fin 5); scored "2" (Fin 3); scored "3" (Fin 3); scored "4" (Fin 7)]
    default_threshold
  = [scored "4" (Fin 7); scored "1" (Fin 5)].
Proof.
  apply (proj2 (proj2 (proj2 (proj2
    (identify_high_surprisal_moments_spec [] default_threshold))))); reflexivity.
Defined.

(** ** Serialisation *)





(** ** The statements at concrete inputs *)

Lemma analyze_formulaic_spec_witness :
  exists a primary,
    @analyze_mention_surprisal beta_code mention_swift achilles_index
      achilles_expectations = Ok (Some a) /\
    atype a = "formulaic"%string /\
    primary_formula a = Some primary /\
    (is_deviation a = true <-> (probability a < 1 # 10)%Q).
Proof.
  destruct (@analyze_formulaic_spec beta_code mention_swift achilles_index
              achilles_expectations
              (@profile_of beta_code achilles_mentions achilles_index "Achilles"))
    as (a & primary & before & after & Ha & Hty & _ & _ & Hp & _ & _ & _ & _ & _ & Hdev & _).
  - vm_compute. reflexivity.
  - vm_compute. discriminate.
  - exists a, primary. repeat split; try assumption; apply Hdev.
Defined.

(** The primary formula of [mention_swift]: [Di=os], the more frequent of
    its three patterns, whose probability 1/2 is no deviation. *)
Example analyze_swift :
  exists a,
    @analyze_mention_surprisal beta_code mention_swift achilles_index
      achilles_expectations = Ok (Some a) /\
    option_map original (primary_formula a) = Some "Di=os"%string /\
    probability a = (1 # 2)%Q /\
    is_deviation a = false.
Proof.
  eexists. split.
  { apply (@analyze_formulaic_total beta_code);
      [vm_compute; reflexivity | vm_compute; discriminate | vm_compute; reflexivity]. }
  cbn [primary_formula probability is_deviation]. vm_compute. repeat split.
Qed.

Lemma analyze_plain :
  @analyze_mention_surprisal beta_code mention_plain achilles_index
    achilles_expectations = Ok (Some plain_analysis).
Proof.
  pose proof (@analyze_bare_total beta_code mention_plain achilles_index
                achilles_expectations
                (@profile_of beta_code achilles_mentions achilles_index "Achilles")) as H.
  cbv zeta in H. rewrite H by (vm_compute; reflexivity). clear H.
  reflexivity.
Qed.

(** C4 as stated fails on [mention_plain]: its bare probability is -1/2, on
    which [calculate_surprisal] raises, and the analysis has [+inf]. *)
Lemma bare_surprisal_counterexample :
  exists a,
    has_profile achilles_expectations mention_plain = true /\
    @detect_formulae_in_mention beta_code mention_plain achilles_index = [] /\
    @analyze_mention_surprisal beta_code mention_plain achilles_index
      achilles_expectations = Ok (Some a) /\
    probability a = (-1 # 2)%Q /\
    surprisal a = PInf /\
    calculate_surprisal (probability a) = Raise ValueError /\
    calculate_surprisal (probability a) <> Ok (surprisal a).
Proof.
  exists plain_analysis.
  split; [vm_compute; reflexivity|]. split; [vm_compute; reflexivity|].
  split; [exact analyze_plain|]. split; [reflexivity|]. split; [reflexivity|].
  rewrite calculate_surprisal_neg by reflexivity. split; [reflexivity | discriminate].
Qed.

Lemma analyze_bare_spec_witness :
  exists a,
    @analyze_mention_surprisal beta_code mention_plain achilles_index
      achilles_expectations = Ok (Some a) /\
    atype a = "bare_mention"%string /\
    ((probability a <= 0)%Q -> surprisal a = PInf) /\
    (is_deviation a = true <-> (probability a < 3 # 10)%Q).
Proof.
  destruct (@analyze_bare_spec beta_code mention_plain achilles_index
              achilles_expectations
              (@profile_of beta_code achilles_mentions achilles_index "Achilles"))
    as (a & Ha & Hty & _ & _ & _ & _ & _ & Hinf & Hdev & _).
  - vm_compute. reflexivity.
  - vm_compute. reflexivity.
  - exists a. repeat split; try assumption; apply Hdev.
Defined.



Lemma bare_probability_negative_witness :
  surprisal plain_analysis = PInf /\ is_deviation plain_analysis = true.
Proof.
  apply (proj2 bare_probability_negative beta_code mention_plain achilles_index
           achilles_expectations plain_analysis).
  - exact analyze_plain.
  - reflexivity.
  - discriminate.
Defined.

(** The single pattern of Hector occurs in one of his two mentions. *)
Example hector_probability :
  formula_probabilities (@profile_of beta_code hector_mentions hector_index "Hector")
    !! "koruqai/olos"%string = Some (1 # 2)%Q.
Proof. vm_compute. reflexivity. Qed.



(** * Further properties of the engine *)

(** ** Formula pattern index *)

Section IndexFacts.
Context {L : StrLower}.

Lemma character_patterns_inner (ty : string) (fs : list DbFormula) (acc : list Formula) :
  fold_left (fun acc' formula => acc' ++ [formula_entry ty formula]) fs acc
  = acc ++ map (formula_entry ty) fs.
Proof.
  revert acc. induction fs as [|d fs IH]; intros acc; simpl.
  - by rewrite app_nil_r.
  - by rewrite IH, <- app_assoc.
Qed.

Lemma character_patterns_outer (by_type : list (string * list DbFormula))
    (acc : list Formula) :
  fold_left
    (fun acc0 entry =>
       fold_left (fun acc' formula => acc' ++ [formula_entry (fst entry) formula])
                 (snd entry) acc0)
    by_type acc
  = acc ++ flat_map (fun entry => map (formula_entry (fst entry)) (snd entry)) by_type.
Proof.
  revert acc. induction by_type as [|e by_type IH]; intros acc; simpl.
  - by rewrite app_nil_r.
  - by rewrite IH, character_patterns_inner, <- app_assoc.
Qed.

(** X1: the pattern list of a character holds one record for every formula
    of every type, the types in file order and the formulae in their order
    within the type; the original texts and the frequencies are those of
    the database, and each pattern is the lower-cased original. *)
Theorem character_patterns_flat_map (by_type : list (string * list DbFormula)) :
  character_patterns by_type
  = flat_map (fun entry => map (formula_entry (fst entry)) (snd entry)) by_type
  /\ map original (character_patterns by_type)
     = flat_map (fun entry => map db_pattern (snd entry)) by_type
  /\ map frequency (character_patterns by_type)
     = flat_map (fun entry => map db_frequency (snd entry)) by_type
  /\ map pattern (character_patterns by_type)
     = map lower (map original (character_patterns by_type))
  /\ length (character_patterns by_type)
     = list_sum (map (fun entry => length (snd entry)) by_type).
Proof.
  assert (Heq : character_patterns by_type
    = flat_map (fun entry => map (formula_entry (fst entry)) (snd entry)) by_type).
  { unfold character_patterns. by rewrite character_patterns_outer. }
  assert (Hlow : map pattern (character_patterns by_type)
                 = map lower (map original (character_patterns by_type))).
  { rewrite map_map. apply map_ext_in. intros f Hf.
    by apply (character_patterns_lowered by_type). }
  split; [done|]. split; [|split; [|split; [done|]]]; rewrite Heq; clear Heq Hlow;
    (induction by_type as [|[ty fs] by_type IH]; [done|]);
    cbn [flat_map fst snd map list_sum];
    rewrite ?map_app, ?length_app, IH, ?length_map, ?map_map; done.
Qed.

Lemma build_formula_patterns_fold (database : Database)
    (acc : gmap string (list Formula)) (c : string) :
  fold_left (fun patterns entry =>
               <[fst entry := character_patterns (snd entry)]> patterns)
            database acc !! c
  = match
      fold_left (fun r entry =>
                   if String.eqb (fst entry) c then Some (snd entry) else r)
                database None
    with
    | Some data => Some (character_patterns data)
    | None => acc !! c
    end.
Proof.
  revert acc. induction database as [|e database IH] using rev_ind; intros acc; [done|].
  rewrite !fold_left_app. cbn [fold_left]. rewrite lookup_insert.
  destruct (String.eqb_spec (fst e) c) as [->|Hne].
  - by rewrite decide_True.
  - rewrite decide_False by done. apply IH.
Qed.

Lemma last_entry_app (l1 l2 : Database) (c : string)
    (data : list (string * list DbFormula)) :
  ~ In c (map fst l2) ->
  fold_left (fun r entry => if String.eqb (fst entry) c then Some (snd entry) else r)
            (l1 ++ (c, data) :: l2) None
  = Some data.
Proof.
  intros Hnot. rewrite fold_left_app. cbn [fold_left fst snd].
  rewrite String.eqb_refl. generalize data.
  induction l2 as [|e l2 IH]; intros d; [done|]. cbn [fold_left].
  destruct (String.eqb_spec (fst e) c) as [Heq|Hne].
  - exfalso. apply Hnot. left. done.
  - apply IH. intros H. apply Hnot. by right.
Qed.

Lemma last_entry_absent (database : Database) (c : string) :
  ~ In c (map fst database) ->
  fold_left (fun r entry => if String.eqb (fst entry) c then Some (snd entry) else r)
            database (None : option (list (string * list DbFormula)))
  = None.
Proof.
  induction database as [|e database IH] using rev_ind; intros Hnot; [done|].
  rewrite fold_left_app. cbn [fold_left].
  rewrite map_app, in_app_iff in Hnot.
  destruct (String.eqb_spec (fst e) c) as [Heq|Hne].
  - exfalso. apply Hnot. right. left. done.
  - apply IH. tauto.
Qed.

Lemma last_occurrence (database : Database) (c : string) :
  In c (map fst database) ->
  exists l1 d l2, database = l1 ++ (c, d) :: l2 /\ ~ In c (map fst l2).
Proof.
  induction database as [|[c' d'] database IH]; [done|]. intros Hin.
  destruct (in_dec String.string_dec c (map fst database)) as [Hc|Hc].
  - destruct (IH Hc) as (l1 & d & l2 & -> & Hnot).
    by exists ((c', d') :: l1), d, l2.
  - destruct Hin as [Heq|Hin]; [|done]. simpl in Heq. subst c'.
    by exists [], d', database.
Qed.

Lemma build_formula_patterns_last (database l1 l2 : Database) (c : string)
    (data : list (string * list DbFormula)) :
  database = l1 ++ (c, data) :: l2 -> ~ In c (map fst l2) ->
  build_formula_patterns database !! c = Some (character_patterns data).
Proof.
  intros -> Hnot. unfold build_formula_patterns.
  by rewrite build_formula_patterns_fold, last_entry_app.
Qed.

Lemma build_formula_patterns_absent (database : Database) (c : string) :
  build_formula_patterns database !! c = None <-> ~ In c (map fst database).
Proof.
  split.
  - intros Hnone Hin.
    destruct (last_occurrence database c Hin) as (l1 & d & l2 & Heq & Hnot).
    by rewrite (build_formula_patterns_last database l1 l2 c d) in Hnone.
  - intros Hnot. unfold build_formula_patterns.
    by rewrite build_formula_patterns_fold, last_entry_absent.
Qed.

(** X2: the index has an entry exactly for the characters of the database;
    the entry is the pattern list of the character's formulae, those of its
    last occurrence when the database names it more than once. *)
Theorem build_formula_patterns_lookup (database : Database) (c : string) :
  (forall l1 data l2,
     database = l1 ++ (c, data) :: l2 -> ~ In c (map fst l2) ->
     build_formula_patterns database !! c = Some (character_patterns data)) /\
  (build_formula_patterns database !! c = None <-> ~ In c (map fst database)).
Proof.
  split.
  - intros l1 data l2. apply build_formula_patterns_last.
  - apply build_formula_patterns_absent.
Qed.

End IndexFacts.

(** ** Mention scanner *)

Lemma string_append_assoc (a b c : string) :
  String.append (String.append a b) c = String.append a (String.append b c).
Proof.
  induction a as [|x a IH]; [done|]. by rewrite !append_cons, IH.
Qed.

Lemma is_substring_trans (p q s : string) :
  is_substring p q -> is_substring q s -> is_substring p s.
Proof.
  intros (a & b & ->) (a' & b' & ->).
  exists (String.append a' a), (String.append b b').
  by rewrite !string_append_assoc.
Qed.

Section ScannerClosure.
Context {L : StrLower}.

(** X3: detection is closed under containment of patterns: when a detected
    record's pattern contains the pattern of another record of the same
    character, that record is detected too; and a record with the empty
    pattern is detected in every mention of its character. *)
Theorem detect_substring_closed (m : Mention) (fp : gmap string (list Formula))
    (formulae : list Formula) (f : Formula) :
  fp !! character m = Some formulae ->
  In f formulae ->
  (pattern f = EmptyString -> In f (detect_formulae_in_mention m fp)) /\
  (forall g, In g (detect_formulae_in_mention m fp) ->
             is_substring (pattern f) (pattern g) ->
             In f (detect_formulae_in_mention m fp)).
Proof.
  intros Hfp Hf. rewrite detect_formulae_in_mention_filter, Hfp. simpl. split.
  - intros Hempty. apply filter_In. split; [done|]. rewrite Hempty.
    by destruct (lower (line m)).
  - intros g [_ Hg]%filter_In Hsub. apply filter_In. split; [done|].
    apply str_in_spec. apply str_in_spec in Hg. by eapply is_substring_trans.
Qed.

End ScannerClosure.

Lemma detect_substring_closed_witness :
  In swift_epithet (@detect_formulae_in_mention beta_code mention_swift achilles_index).
Proof.
  destruct (@detect_substring_closed beta_code mention_swift achilles_index
              (default [] (achilles_index !! "Achilles"%string)) swift_epithet)
    as [_ H].
  - vm_compute. reflexivity.
  - vm_compute. auto.
  - apply (H swift_half_line).
    + vm_compute. auto.
    + exists EmptyString, " di=os"%string. reflexivity.
Defined.

(** ** Expectation model *)

Lemma ratio_mono (a b n : Z) : a <= b -> (ratio a n <= ratio b n)%Q.
Proof.
  intros H. unfold ratio. destruct (0 <? n) eqn:E; [|apply Qle_refl].
  apply Z.ltb_lt in E. unfold Qdiv. apply Qmult_le_compat_r.
  - unfold Qle. simpl. lia.
  - apply Qinv_le_0_compat. unfold Qle. simpl. lia.
Qed.

Lemma ratio_positive (a n : Z) : 0 < a -> 0 < n -> (0 < ratio a n)%Q.
Proof.
  intros Ha Hn. unfold ratio. rewrite (proj2 (Z.ltb_lt 0 n)) by done.
  apply Qlt_shift_div_l.
  - unfold Qlt. simpl. lia.
  - unfold Qlt. simpl. lia.
Qed.

Section ProfileFacts.
Context {L : StrLower}.

Lemma detections_nonneg (fp : gmap string (list Formula)) (p : string) (m : Mention) :
  0 <= detections fp p m.
Proof. unfold detections. lia. Qed.

Lemma detections_le_total (fp : gmap string (list Formula)) (p : string)
    (ms : list Mention) (m : Mention) :
  In m ms -> detections fp p m <= total_detections fp p ms.
Proof.
  induction ms as [|m' ms IH]; [done|]. simpl.
  pose proof (total_detections_nonneg fp p ms).
  pose proof (detections_nonneg fp p m').
  intros [->|Hin]; [lia|]. specialize (IH Hin). lia.
Qed.

Lemma detections_positive (fp : gmap string (list Formula)) (m : Mention) (f : Formula) :
  In f (detect_formulae_in_mention m fp) -> 1 <= detections fp (pattern f) m.
Proof.
  intros Hf. unfold detections.
  assert (Hin : In f (List.filter (fun g => String.eqb (pattern g) (pattern f))
                                  (detect_formulae_in_mention m fp))).
  { apply filter_In. split; [done|]. apply String.eqb_refl. }
  destruct (List.filter _ _); [done|]. simpl length. lia.
Qed.

Lemma total_detections_source (fp : gmap string (list Formula)) (p : string)
    (ms : list Mention) :
  0 < total_detections fp p ms ->
  exists m f, In m ms /\ In f (detect_formulae_in_mention m fp) /\ pattern f = p.
Proof.
  induction ms as [|m ms IH]; simpl; [lia|]. intros Hpos.
  destruct (Z.eq_dec (detections fp p m) 0) as [Hz|Hnz].
  - destruct IH as (m' & f & Hm' & Hf & Hp); [lia|]. exists m', f. auto.
  - unfold detections in Hnz.
    destruct (List.filter _ (detect_formulae_in_mention m fp)) as [|f l] eqn:E; [done|].
    assert (Hf : In f (List.filter (fun f => String.eqb (pattern f) p)
                                   (detect_formulae_in_mention m fp)))
      by (rewrite E; by left).
    apply filter_In in Hf as [Hf Hp%String.eqb_eq]. exists m, f. auto.
Qed.

Lemma mentions_of_In (mentions : list Mention) (m : Mention) :
  In m mentions -> In m (mentions_of mentions (character m)).
Proof.
  intros H. unfold mentions_of. apply filter_In. split; [done|]. apply String.eqb_refl.
Qed.

Lemma detected_in_index (fp : gmap string (list Formula)) (m : Mention) (f : Formula) :
  In f (detect_formulae_in_mention m fp) ->
  exists fs, fp !! character m = Some fs /\ In f fs.
Proof.
  rewrite detect_formulae_in_mention_filter.
  destruct (fp !! character m) as [fs|]; simpl; [|done].
  intros [Hf _]%filter_In. by exists fs.
Qed.

Lemma mentions_with_le (fp : gmap string (list Formula)) (p : string) (ms : list Mention) :
  mentions_with fp p ms <= Z.of_nat (length ms).
Proof.
  unfold mentions_with. induction ms as [|m ms IH]; simpl; [done|].
  destruct (detected_in fp p m); simpl length; lia.
Qed.

(** X4: the expectation model never raises and gives a profile exactly to
    the characters of the index; a profile counts the mentions of its
    character only, its counts add up to the number of records detected in
    them, its probabilities are there for the counted patterns and no
    others, and a character without mentions has empty tables. *)
Theorem calculate_formula_expectations_profiles (mentions : list Mention)
    (fp : gmap string (list Formula)) (database : Database) :
  exists ex,
    calculate_formula_expectations mentions fp database = Ok ex /\
    dom ex = dom fp /\
    forall c prof, ex !! c = Some prof ->
      total_mentions prof = Z.of_nat (length (mentions_of mentions c)) /\
      sum_values (formula_counts prof) = all_detections fp (mentions_of mentions c) /\
      dom (formula_probabilities prof) = dom (formula_counts prof) /\
      (mentions_of mentions c = [] ->
       formula_counts prof = ∅ /\ formula_probabilities prof = ∅).
Proof.
  destruct (calculate_formula_expectations_total mentions fp database) as (ex & Hex & Hl).
  exists ex. split; [done|]. split.
  { apply set_eq. intros c. rewrite !elem_of_dom, Hl. by rewrite fmap_is_Some. }
  intros c prof. rewrite Hl. destruct (fp !! c) as [fs|]; [|done].
  intros [= <-]. simpl. split; [done|]. split; [apply count_formulae_sum|].
  split; [by rewrite dom_fmap_L|].
  intros Hnil. rewrite Hnil. unfold count_formulae. simpl. by rewrite fmap_empty.
Qed.

(** X5: every probability that the expectation model stores is positive,
    belongs to a pattern of a record of that character in the index, and is
    the pattern's count, at least 1, over the character's number of
    mentions; it is at most 1 when the character's records bear pairwise
    distinct patterns. *)
Theorem formula_probabilities_positive (mentions : list Mention)
    (fp : gmap string (list Formula)) (database : Database)
    (ex : gmap string Profile) (c : string) (prof : Profile) (p : string) (q : Q) :
  calculate_formula_expectations mentions fp database = Ok ex ->
  ex !! c = Some prof ->
  formula_probabilities prof !! p = Some q ->
  (0 < q)%Q /\
  (exists n, formula_counts prof !! p = Some n /\ 1 <= n /\
             0 < total_mentions prof /\
             q = (Qmake n 1 / Qmake (total_mentions prof) 1)%Q) /\
  (exists fs f, fp !! c = Some fs /\ In f fs /\ pattern f = p) /\
  (forall fs, fp !! c = Some fs -> NoDup (map pattern fs) -> (q <= 1)%Q).
Proof.
  intros Hex Hprof Hq.
  destruct (calculate_formula_expectations_total mentions fp database) as (ex' & Hex' & Hl).
  assert (ex' = ex) as -> by congruence. clear Hex Hex'.
  rewrite Hl in Hprof. destruct (fp !! c) as [fs|] eqn:Hfs; [|done].
  injection Hprof as <-. simpl in *.
  rewrite lookup_fmap, count_formulae_lookup in Hq. rewrite count_formulae_lookup.
  set (ms := mentions_of mentions c) in *.
  set (td := total_detections fp p ms) in *.
  destruct (0 <? td) eqn:Htd; [|done]. apply Z.ltb_lt in Htd.
  simpl in Hq. injection Hq as <-.
  destruct (total_detections_source fp p ms Htd) as (m & f & Hm & Hf & Hp).
  assert (Hc : character m = c) by (by eapply mentions_of_character).
  assert (HN : 0 < Z.of_nat (length ms)) by (destruct ms; [done | simpl length; lia]).
  split; [by apply ratio_positive|].
  split; [exists td; repeat split; [lia | done | by apply ratio_pos]|].
  split.
  { destruct (detected_in_index fp m f Hf) as (fs' & Hfs' & Hin).
    rewrite Hc, Hfs in Hfs'. injection Hfs' as <-. by exists fs, f. }
  intros fs' [= <-] Hnd. apply ratio_le_1. unfold td.
  rewrite (total_detections_nodup fp p c).
  - apply mentions_with_le.
  - by rewrite Hfs.
  - apply mentions_of_character.
Qed.

End ProfileFacts.

Lemma formula_probabilities_positive_witness :
  exists n,
    formula_counts (@profile_of beta_code hector_mentions hector_index "Hector")
      !! "koruqai/olos"%string = Some n /\ 1 <= n.
Proof.
  destruct (@formula_probabilities_positive beta_code hector_mentions hector_index
              hector_db hector_expectations "Hector"
              (@profile_of beta_code hector_mentions hector_index "Hector")
              "koruqai/olos" (1 # 2)%Q)
    as (_ & (n & Hn & Hle & _) & _).
  - vm_compute. reflexivity.
  - vm_compute. reflexivity.
  - vm_compute. reflexivity.
  - exists n. split; assumption.
Defined.

(** ** Scoring the mentions the expectations were computed from *)

Lemma log2_nonpos (x : R) : (0 < x)%R -> (x <= 1)%R -> (log2 x <= 0)%R.
Proof.
  intros Hx [Hlt| ->].
  - left. rewrite <- log2_1. by apply log2_increasing.
  - right. apply log2_1.
Qed.

Section PipelineScoring.
Context {L : StrLower}.

Lemma expectations_lookup (mentions : list Mention) (fp : gmap string (list Formula))
    (database : Database) (ex : gmap string Profile) (c : string) :
  calculate_formula_expectations mentions fp database = Ok ex ->
  ex !! c = (fun _ => profile_of mentions fp c) <$> fp !! c.
Proof.
  intros Hex.
  destruct (calculate_formula_expectations_total mentions fp database) as (ex' & Hex' & Hl).
  assert (ex' = ex) as -> by congruence. apply Hl.
Qed.

(** X6: a mention of the analysed list in which a formula is detected
    always finds its primary formula in the probability table: the
    probability is its count over the number N of mentions of the
    character, at least 1/N, and the surprisal is finite. *)
Theorem pipeline_formulaic_finite (mentions : list Mention)
    (fp : gmap string (list Formula)) (database : Database)
    (ex : gmap string Profile) (m : Mention) :
  calculate_formula_expectations mentions fp database = Ok ex ->
  In m mentions ->
  detect_formulae_in_mention m fp <> [] ->
  exists a primary n,
    analyze_mention_surprisal m fp ex = Ok (Some a) /\
    atype a = "formulaic"%string /\
    primary_formula a = Some primary /\
    let N := Z.of_nat (length (mentions_of mentions (character m))) in
    1 <= n /\ 1 <= N /\
    probability a = (Qmake n 1 / Qmake N 1)%Q /\
    (Qmake 1 1 / Qmake N 1 <= probability a)%Q /\
    surprisal a = Fin (- log2 (Q2R (probability a))).
Proof.
  intros Hex Hm Hdet.
  destruct (max_by_frequency_spec _ Hdet) as (primary & before & after & Hmax & Heq & _).
  assert (Hprim : In primary (detect_formulae_in_mention m fp)).
  { rewrite Heq. apply in_or_app. right. by left. }
  destruct (detected_in_index fp m primary Hprim) as (fs & Hfs & _).
  assert (Hprof : ex !! character m = Some (profile_of mentions fp (character m))).
  { rewrite (expectations_lookup mentions fp database ex _ Hex), Hfs. done. }
  pose proof (analyze_formulaic_total m fp ex _ primary Hprof Hdet Hmax) as Ha.
  cbv zeta in Ha.
  set (ms := mentions_of mentions (character m)) in *.
  set (td := total_detections fp (pattern primary) ms).
  assert (Htd : 1 <= td).
  { pose proof (detections_positive fp m primary Hprim).
    pose proof (detections_le_total fp (pattern primary) ms m (mentions_of_In _ _ Hm)).
    unfold td. lia. }
  assert (HN : 1 <= Z.of_nat (length ms)).
  { pose proof (mentions_of_In _ _ Hm) as Hin. fold ms in Hin.
    destruct ms; [done | simpl length; lia]. }
  assert (Hlook : formula_probabilities (profile_of mentions fp (character m))
                    !! pattern primary = Some (ratio td (Z.of_nat (length ms)))).
  { simpl. rewrite lookup_fmap, count_formulae_lookup. fold ms. fold td.
    by rewrite (proj2 (Z.ltb_lt 0 td)) by lia. }
  rewrite Hlook in Ha. simpl in Ha.
  assert (Hpos : (0 < ratio td (Z.of_nat (length ms)))%Q) by (apply ratio_positive; lia).
  rewrite (proj2 (Qltb_lt _ _) Hpos) in Ha.
  eexists _, primary, td. split; [exact Ha|]. simpl.
  split; [done|]. split; [done|]. split; [done|]. split; [done|].
  split; [apply ratio_pos; lia|]. split; [|done].
  rewrite <- (ratio_pos 1) by lia. apply ratio_mono. lia.
Qed.

Lemma all_detections_nonneg (fp : gmap string (list Formula)) (ms : list Mention) :
  0 <= all_detections fp ms.
Proof. induction ms; simpl; lia. Qed.

Lemma all_detections_bare (fp : gmap string (list Formula)) (ms : list Mention)
    (m : Mention) :
  In m ms ->
  detect_formulae_in_mention m fp = [] ->
  (forall m', In m' ms -> (length (detect_formulae_in_mention m' fp) <= 1)%nat) ->
  all_detections fp ms <= Z.of_nat (length ms) - 1.
Proof.
  induction ms as [|m' ms IH]; [done|]. intros Hin Hbare Hone. simpl.
  assert (Hrest : forall m'', In m'' ms ->
            (length (detect_formulae_in_mention m'' fp) <= 1)%nat)
    by (intros; apply Hone; by right).
  destruct Hin as [->|Hin].
  - rewrite Hbare. simpl length. pose proof (all_detections_le fp ms Hrest). lia.
  - specialize (IH Hin Hbare Hrest). specialize (Hone m' (or_introl eq_refl)). lia.
Qed.

(** X7: a mention of the analysed list whose character is in the index and
    in which no formula is detected gets the bare probability
    [(N - D) / N], where N >= 1 is the number of the character's mentions
    and D the number of records detected in them; it is at most 1, so that
    the surprisal is [+inf] or a number that is not negative; when no
    mention of the character has more than one detected record it is at
    least 1/N and the surprisal is finite. *)
Theorem pipeline_bare_bounds (mentions : list Mention)
    (fp : gmap string (list Formula)) (database : Database)
    (ex : gmap string Profile) (m : Mention) :
  calculate_formula_expectations mentions fp database = Ok ex ->
  In m mentions ->
  fp !! character m <> None ->
  detect_formulae_in_mention m fp = [] ->
  exists a,
    analyze_mention_surprisal m fp ex = Ok (Some a) /\
    atype a = "bare_mention"%string /\
    let ms := mentions_of mentions (character m) in
    let N := Z.of_nat (length ms) in
    1 <= N /\
    probability a = (Qmake (N - all_detections fp ms) 1 / Qmake N 1)%Q /\
    (probability a <= 1)%Q /\
    (surprisal a = PInf \/ exists s, surprisal a = Fin s /\ (0 <= s)%R) /\
    ((forall m', In m' ms -> (length (detect_formulae_in_mention m' fp) <= 1)%nat) ->
     (Qmake 1 1 / Qmake N 1 <= probability a)%Q /\
     surprisal a = Fin (- log2 (Q2R (probability a)))).
Proof.
  intros Hex Hm Hfp Hdet.
  destruct (fp !! character m) as [fs|] eqn:Hfs; [|done]. clear Hfp.
  assert (Hprof : ex !! character m = Some (profile_of mentions fp (character m))).
  { rewrite (expectations_lookup mentions fp database ex _ Hex), Hfs. done. }
  pose proof (analyze_bare_total m fp ex _ Hprof Hdet) as Ha. cbv zeta in Ha.
  simpl in Ha. rewrite count_formulae_sum in Ha.
  set (ms := mentions_of mentions (character m)) in *.
  pose proof (mentions_of_In _ _ Hm) as Hin. fold ms in Hin.
  assert (HN : 1 <= Z.of_nat (length ms)) by (destruct ms; [done | simpl length; lia]).
  rewrite (proj2 (Z.ltb_lt 0 _)) in Ha by lia.
  pose proof (all_detections_nonneg fp ms) as HD.
  set (N := Z.of_nat (length ms)) in *. set (D := all_detections fp ms) in *.
  assert (Hratio : (Qmake (N - D) 1 / Qmake N 1)%Q = ratio (N - D) N)
    by (symmetry; apply ratio_pos; lia).
  eexists. split; [exact Ha|]. simpl.
  split; [done|]. split; [done|]. split; [done|].
  assert (Hle1 : (Qmake (N - D) 1 / Qmake N 1 <= 1)%Q)
    by (rewrite Hratio; apply ratio_le_1; lia).
  split; [done|]. split.
  - destruct (Qltb 0 _) eqn:E; [|by left]. right. eexists. split; [done|].
    apply Qltb_lt in E.
    assert (log2 (Q2R (Qmake (N - D) 1 / Qmake N 1)) <= 0)%R; [|lra].
    apply log2_nonpos; [by apply Q2R_pos|].
    rewrite <- RMicromega.Q2R_1. by apply Qreals.Qle_Rle.
  - intros Hone.
    pose proof (all_detections_bare fp ms m Hin Hdet Hone) as Hb. fold D N in Hb.
    assert (Hge : (Qmake 1 1 / Qmake N 1 <= Qmake (N - D) 1 / Qmake N 1)%Q).
    { rewrite Hratio, <- (ratio_pos 1) by lia. apply ratio_mono. lia. }
    split; [done|].
    assert (Hpos : (0 < Qmake (N - D) 1 / Qmake N 1)%Q).
    { rewrite Hratio. apply ratio_positive; lia. }
    by rewrite (proj2 (Qltb_lt _ _) Hpos).
Qed.

End PipelineScoring.

Lemma pipeline_formulaic_finite_witness :
  exists a,
    @analyze_mention_surprisal beta_code hector_crest hector_index hector_expectations
    = Ok (Some a) /\
    atype a = "formulaic"%string /\
    surprisal a = Fin (- log2 (Q2R (probability a))).
Proof.
  destruct (@pipeline_formulaic_finite beta_code hector_mentions hector_index
              hector_db hector_expectations hector_crest)
    as (a & primary & n & Ha & Hty & _ & _ & _ & _ & _ & Hs).
  - vm_compute. reflexivity.
  - right. left. reflexivity.
  - vm_compute. discriminate.
  - exists a. repeat split; assumption.
Defined.

Lemma pipeline_bare_bounds_witness :
  exists a,
    @analyze_mention_surprisal beta_code hector_plain hector_index hector_expectations
    = Ok (Some a) /\
    atype a = "bare_mention"%string /\
    (probability a <= 1)%Q.
Proof.
  destruct (@pipeline_bare_bounds beta_code hector_mentions hector_index
              hector_db hector_expectations hector_plain)
    as (a & Ha & Hty & _ & _ & Hle & _).
  - vm_compute. reflexivity.
  - left. reflexivity.
  - vm_compute. discriminate.
  - vm_compute. reflexivity.
  - exists a. repeat split; assumption.
Defined.

(** ** Surprisal against the thresholds *)

Lemma log2_inv_pow (k : nat) : log2 (/ 2 ^ k) = (- INR k)%R.
Proof.
  unfold log2. rewrite ln_Rinv by (apply pow_lt; lra).
  rewrite ln_pow by lra. field. apply Rgt_not_eq, ln_2_pos.
Qed.

Lemma log2_lt_iff (x y : R) : (0 < x)%R -> (0 < y)%R -> (log2 x < log2 y)%R <-> (x < y)%R.
Proof.
  intros Hx Hy. split; [|by apply log2_increasing].
  unfold log2, Rdiv. intros H. apply ln_lt_inv; [done | done |].
  eapply Rmult_lt_reg_r; [|exact H]. apply Rinv_0_lt_compat, ln_2_pos.
Qed.

Lemma Q2R_inv_pow2 (k : nat) : Q2R (1 / inject_Z (2 ^ Z.of_nat k)) = (/ 2 ^ k)%R.
Proof.
  assert (Hpos : 0 < 2 ^ Z.of_nat k) by (apply Z.pow_pos_nonneg; lia).
  rewrite Qreals.Q2R_div.
  - rewrite RMicromega.Q2R_1. unfold Rdiv. rewrite Rmult_1_l. f_equal.
    unfold Q2R, inject_Z. simpl. rewrite <- pow_IZR. field.
  - intros H. unfold Qeq in H. simpl in H. lia.
Qed.

Lemma neg_log2_gt_iff (p : Q) (j : nat) :
  (0 < p)%Q ->
  fgt (Fin (- log2 (Q2R p))) (Fin (INR j)) = true
  <-> (p < 1 / inject_Z (2 ^ Z.of_nat j))%Q.
Proof.
  intros Hp. rewrite fgt_true. simpl.
  assert (Hpow : (0 < / 2 ^ j)%R) by (apply Rinv_0_lt_compat, pow_lt; lra).
  pose proof (log2_lt_iff (Q2R p) (/ 2 ^ j) (Q2R_pos p Hp) Hpow) as Hiff.
  rewrite log2_inv_pow in Hiff. split.
  - intros H. apply Qreals.Rlt_Qlt. rewrite Q2R_inv_pow2. apply Hiff. lra.
  - intros H. apply Qreals.Qlt_Rlt in H. rewrite Q2R_inv_pow2 in H.
    apply Hiff in H. lra.
Qed.

Lemma neg_log2_gt_default_iff (p : Q) :
  (0 < p)%Q ->
  fgt (Fin (- log2 (Q2R p))) default_threshold = true <-> (p < 1 # 8)%Q.
Proof.
  intros Hp. pose proof (neg_log2_gt_iff p 3 Hp) as Hgen. unfold default_threshold.
  replace (INR 3) with 3%R in Hgen by (simpl; lra).
  rewrite Hgen. split; intros H.
  - eapply Qlt_le_trans; [exact H | discriminate].
  - eapply Qlt_le_trans; [exact H | discriminate].
Qed.



Lemma identify_In (analyses : list Analysis) (t : pyfloat) (a : Analysis) :
  In a (identify_high_surprisal_moments analyses t)
  <-> In a analyses /\ fgt (surprisal a) t = true.
Proof.
  unfold identify_high_surprisal_moments. cbv zeta.
  rewrite <- (filter_In (fun a => fgt (surprisal a) t)).
  split; apply Permutation_in; [|symmetry]; apply sort_desc_perm.
Qed.

Section DeviationsAndRanking.
Context {L : StrLower}.

Lemma find_deviations_each (mentions : list Mention) (fp : gmap string (list Formula))
    (ex : gmap string Profile) (analyses : list Analysis) :
  find_deviations mentions fp ex = Ok analyses ->
  map mention analyses = List.filter (has_profile ex) mentions /\
  Forall (fun a => analyze_mention_surprisal (mention a) fp ex = Ok (Some a)) analyses.
Proof.
  intros H. destruct (find_deviations_fold mentions fp ex []) as (l & Hfold & Hmap & Hall).
  unfold find_deviations in H. rewrite Hfold in H. simpl in H. injection H as <-. done.
Qed.

Lemma find_deviations_single (m : Mention) (fp : gmap string (list Formula))
    (ex : gmap string Profile) (a : Analysis) :
  analyze_mention_surprisal m fp ex = Ok (Some a) ->
  find_deviations [m] fp ex = Ok [a].
Proof. intros H. unfold find_deviations. simpl. by rewrite H. Qed.

(** The shape of every analysis that is classified as formulaic. *)
Lemma analyze_formulaic_inv (m : Mention) (fp : gmap string (list Formula))
    (ex : gmap string Profile) (a : Analysis) :
  analyze_mention_surprisal m fp ex = Ok (Some a) ->
  atype a = "formulaic"%string ->
  exists primary,
    primary_formula a = Some primary /\
    In primary (detect_formulae_in_mention m fp) /\
    detected_formulae a = detect_formulae_in_mention m fp /\
    surprisal a = (if Qltb 0 (probability a)
                   then Fin (- log2 (Q2R (probability a))) else PInf) /\
    is_deviation a = Qltb (probability a) (1 # 10).
Proof.
  intros Ha Hty.
  destruct (ex !! character m) as [prof|] eqn:Hprof;
    [|unfold analyze_mention_surprisal in Ha; by rewrite Hprof in Ha].
  assert (Hcase : detect_formulae_in_mention m fp = []
                  \/ detect_formulae_in_mention m fp <> [])
    by (destruct (detect_formulae_in_mention m fp); [by left | by right]).
  destruct Hcase as [Hdet|Hne].
  - pose proof (analyze_bare_total m fp ex prof Hprof Hdet) as Hb. cbv zeta in Hb.
    rewrite Hb in Ha. injection Ha as <-. done.
  - destruct (max_by_frequency_spec _ Hne) as (primary & before & after & Hmax & Heq & _).
    pose proof (analyze_formulaic_total m fp ex prof primary Hprof Hne Hmax) as Hf.
    cbv zeta in Hf. rewrite Hf in Ha. injection Ha as <-. simpl.
    exists primary. split; [done|]. split; [|done].
    rewrite Heq. apply in_or_app. right. by left.
Qed.

(** X9: every formulaic mention that is flagged as a deviation is among
    the high surprisal moments at the default threshold: a probability
    below 0.10 is below 1/8, or is not positive and has surprisal [+inf]. *)
Theorem formulaic_deviations_are_high (mentions : list Mention)
    (fp : gmap string (list Formula)) (ex : gmap string Profile)
    (analyses : list Analysis) (a : Analysis) :
  find_deviations mentions fp ex = Ok analyses ->
  In a analyses ->
  atype a = "formulaic"%string ->
  is_deviation a = true ->
  In a (identify_high_surprisal_moments analyses default_threshold).
Proof.
  intros Hfind Hin Hty Hdev. apply identify_In. split; [done|].
  destruct (find_deviations_each _ _ _ _ Hfind) as [_ Hall].
  rewrite Forall_forall in Hall. specialize (Hall a (proj2 (list_elem_of_In _ _) Hin)).
  destruct (analyze_formulaic_inv _ _ _ _ Hall Hty) as (primary & _ & _ & _ & Hs & Hd).
  rewrite Hd in Hdev. apply Qltb_lt in Hdev. rewrite Hs.
  destruct (Qltb 0 (probability a)) eqn:E; [|done].
  apply Qltb_lt in E.
  apply neg_log2_gt_default_iff; [done|].
  eapply Qlt_trans; [exact Hdev | reflexivity].
Qed.

End DeviationsAndRanking.

Lemma formulaic_deviations_are_high_witness :
  exists analyses a,
    @find_deviations beta_code [hector_crest] hector_index rare_expectations
    = Ok analyses /\
    probability a = (1 # 20)%Q /\
    In a (identify_high_surprisal_moments analyses default_threshold).
Proof.
  assert (Ha := @analyze_formulaic_total beta_code hector_crest hector_index
                  rare_expectations rare_profile crest_formula).
  cbv zeta in Ha. specialize (Ha ltac:(vm_compute; reflexivity)).
  specialize (Ha ltac:(vm_compute; discriminate)).
  specialize (Ha ltac:(vm_compute; reflexivity)).
  apply (@find_deviations_single beta_code) in Ha.
  match type of Ha with _ = Ok [?r] => exists [r], r end.
  split; [exact Ha|]. split; [vm_compute; reflexivity|].
  apply (@formulaic_deviations_are_high beta_code [hector_crest] hector_index
           rare_expectations _ _ Ha).
  - left. reflexivity.
  - reflexivity.
  - vm_compute. reflexivity.
Defined.

(** ** Ranking a ranked list *)

Section RerankFacts.
Context {A : Type} (key : A -> pyfloat).

Lemma sort_desc_sorted_id (l : list A) :
  StronglySorted (fun a b => ~ flt (key a) (key b)) l -> sort_desc key l = l.
Proof.
  induction l as [|x l IH]; [done|]. intros Hs.
  apply StronglySorted_inv in Hs as [Hs Hx]. cbn [sort_desc foldr].
  fold (sort_desc key l). rewrite IH by done.
  destruct l as [|y l']; [done|]. cbn [insert_desc].
  apply Forall_cons in Hx as [Hxy _].
  by rewrite (proj2 (fgt_false (key y) (key x)) Hxy).
Qed.

Lemma insert_desc_filter (P : A -> bool) (x : A) (l : list A) :
  StronglySorted (fun a b => ~ flt (key a) (key b)) l ->
  List.filter P (insert_desc key x l)
  = if P x then insert_desc key x (List.filter P l) else List.filter P l.
Proof.
  induction l as [|y l IH]; intros Hs.
  - simpl. by destruct (P x).
  - apply StronglySorted_inv in Hs as [Hs Hy]. cbn [insert_desc].
    destruct (fgt (key y) (key x)) eqn:E.
    + cbn [List.filter]. rewrite IH by done.
      destruct (P y), (P x); try done. cbn [insert_desc]. by rewrite E.
    + change (List.filter P (x :: y :: l))
        with (if P x then x :: List.filter P (y :: l) else List.filter P (y :: l)).
      destruct (P x) eqn:Px; [|done].
      apply fgt_false in E.
      assert (Hall : Forall (fun z => ~ flt (key x) (key z)) (y :: l)).
      { constructor; [done|]. eapply Forall_impl; [exact Hy|].
        intros z Hz. simpl in Hz. by eapply not_flt_trans. }
      assert (Hfil : Forall (fun z => ~ flt (key x) (key z)) (List.filter P (y :: l))).
      { rewrite Forall_forall in Hall |- *. intros z Hz%list_elem_of_In.
        apply filter_In in Hz as [Hz _]. apply Hall. by apply list_elem_of_In. }
      destruct (List.filter P (y :: l)) as [|z l'] eqn:F; [done|].
      cbn [insert_desc]. apply Forall_cons in Hfil as [Hz _].
      by rewrite (proj2 (fgt_false (key z) (key x)) Hz).
Qed.

(** A stable sort commutes with filtering. *)
Lemma sort_desc_filter (P : A -> bool) (l : list A) :
  List.filter P (sort_desc key l) = sort_desc key (List.filter P l).
Proof.
  induction l as [|x l IH]; [done|]. cbn [sort_desc foldr List.filter].
  fold (sort_desc key l). rewrite insert_desc_filter by apply sort_desc_sorted.
  rewrite IH. by destruct (P x).
Qed.

End RerankFacts.

Lemma filter_threshold_twice (t t' : pyfloat) (l : list Analysis) :
  ~ flt t' t ->
  List.filter (fun a => fgt (surprisal a) t')
              (List.filter (fun a => fgt (surprisal a) t) l)
  = List.filter (fun a => fgt (surprisal a) t') l.
Proof.
  intros Hle. induction l as [|a l IH]; [done|]. cbn [List.filter].
  destruct (fgt (surprisal a) t) eqn:E.
  - cbn [List.filter]. by rewrite IH.
  - rewrite IH. destruct (fgt (surprisal a) t') eqn:E'; [|done].
    exfalso. apply fgt_true in E'. apply fgt_false in E. apply E.
    destruct (flt_total t t') as [H|[->|H]]; [|done|done].
    by eapply flt_trans.
Qed.

(** X10: ranking a ranked list again at the same or a higher threshold
    gives what ranking the original list at that threshold gives; in
    particular ranking twice at one threshold changes nothing. *)
Theorem identify_high_surprisal_moments_again (analyses : list Analysis)
    (t t' : pyfloat) :
  ~ flt t' t ->
  identify_high_surprisal_moments (identify_high_surprisal_moments analyses t) t'
  = identify_high_surprisal_moments analyses t'.
Proof.
  intros Hle. unfold identify_high_surprisal_moments. cbv zeta.
  rewrite sort_desc_filter, filter_threshold_twice by done.
  apply sort_desc_sorted_id, sort_desc_sorted.
Qed.

Lemma identify_high_surprisal_moments_again_witness :
  identify_high_surprisal_moments
    (identify_high_surprisal_moments
       [scored "1" (Fin 5); scored "2" PInf; scored "3" (Fin 2)] (Fin 1))
    default_threshold
  = identify_high_surprisal_moments
      [scored "1" (Fin 5); scored "2" PInf; scored "3" (Fin 2)] default_threshold.
Proof.
  apply identify_high_surprisal_moments_again. simpl. unfold default_threshold. lra.
Defined.

Lemma sorted_infinite_first (l : list Analysis) :
  StronglySorted (fun a b => ~ flt (surprisal a) (surprisal b)) l ->
  l = with_surprisal PInf l
      ++ List.filter (fun a => if pyfloat_eq_dec (surprisal a) PInf then false else true) l.
Proof.
  unfold with_surprisal. induction l as [|x l IH]; [done|]. intros Hs.
  apply StronglySorted_inv in Hs as [Hs Hx]. cbn [List.filter].
  destruct (pyfloat_eq_dec (surprisal x) PInf) as [Hinf|Hfin].
  - simpl. f_equal. by apply IH.
  - assert (Hnone : List.filter
      (fun a => if pyfloat_eq_dec (surprisal a) PInf then true else false) l = []).
    { clear IH Hs. induction l as [|y l IH]; [done|].
      apply Forall_cons in Hx as [Hxy Hx]. cbn [List.filter].
      destruct (pyfloat_eq_dec (surprisal y) PInf) as [Hy|_]; [|by apply IH].
      exfalso. apply Hxy. rewrite Hy. by destruct (surprisal x). }
    rewrite Hnone. simpl. f_equal.
    clear IH Hs Hnone. induction l as [|y l IH]; [done|].
    apply Forall_cons in Hx as [Hxy Hx]. cbn [List.filter].
    destruct (pyfloat_eq_dec (surprisal y) PInf) as [Hy|_].
    + exfalso. apply Hxy. rewrite Hy. by destruct (surprisal x).
    + f_equal. by apply IH.
Qed.

(** X11: at a finite threshold the analyses of surprisal [+inf] are all
    kept and head the ranking, in their input order; the entries after
    them have finite surprisal. *)
Theorem infinite_surprisal_first (analyses : list Analysis) (t : R) :
  exists finite,
    identify_high_surprisal_moments analyses (Fin t)
    = with_surprisal PInf analyses ++ finite /\
    Forall (fun a => exists s, surprisal a = Fin s /\ (t < s)%R) finite.
Proof.
  set (high := identify_high_surprisal_moments analyses (Fin t)).
  exists (List.filter (fun a => if pyfloat_eq_dec (surprisal a) PInf then false else true)
                      high).
  split.
  - rewrite (sorted_infinite_first high) at 1 by apply sort_desc_sorted.
    f_equal. unfold high, identify_high_surprisal_moments, with_surprisal. cbv zeta.
    rewrite sort_desc_stable.
    induction analyses as [|a l IH]; [done|]. cbn [List.filter].
    destruct (pyfloat_eq_dec (surprisal a) PInf) as [Ha|Ha].
    + rewrite Ha. change (fgt PInf (Fin t)) with true. cbn [List.filter].
      rewrite Ha. destruct (pyfloat_eq_dec PInf PInf); [|done]. by rewrite IH.
    + destruct (fgt (surprisal a) (Fin t)); [|done]. cbn [List.filter].
      by destruct (pyfloat_eq_dec (surprisal a) PInf).
  - rewrite Forall_forall. intros a Ha%list_elem_of_In.
    apply filter_In in Ha as [Hin Hfin].
    apply identify_In in Hin as [_ Hgt%fgt_true].
    destruct (surprisal a) as [|s|] eqn:E; simpl in *; [done | by exists s |].
    by destruct (pyfloat_eq_dec PInf PInf).
Qed.

(** ** Writing the data *)

Lemma serializable_raise (a : Analysis) (e : exn) :
  serializable a = Raise e ->
  e = KeyError /\ atype a = "formulaic"%string /\ primary_formula a = None.
Proof.
  unfold serializable.
  destruct (String.eqb_spec (atype a) "formulaic") as [Hty|_]; [|done].
  destruct (primary_formula a); [done|]. by intros [= <-].
Qed.

Lemma serializable_fields (a : Analysis) (e : Entry) :
  serializable a = Ok e ->
  e_line_num e = line_num (mention a) /\
  e_character e = character (mention a) /\
  e_line e = line (mention a) /\
  e_type e = atype a /\
  e_probability e = probability a /\
  e_is_deviation e = is_deviation a /\
  (if String.eqb (atype a) "formulaic"
   then e_detected_formulae e = Some (map original (detected_formulae a)) /\
        e_primary_formula e = option_map original (primary_formula a) /\
        primary_formula a <> None
   else e_detected_formulae e = None /\ e_primary_formula e = None).
Proof.
  unfold serializable. destruct (String.eqb (atype a) "formulaic").
  - destruct (primary_formula a); [|done]. by intros [= <-].
  - by intros [= <-].
Qed.

Lemma save_fold_exact (analyses : list Analysis) (acc : list Entry) :
  match
    fold_left
      (fun acc a => entries ← acc; entry ← serializable a; mret (entries ++ [entry]))
      analyses (Ok acc)
  with
  | Ok out => exists entries,
      out = acc ++ entries /\
      Forall2 (fun a e => serializable a = Ok e) analyses entries
  | Raise e =>
      e = KeyError /\
      exists a, In a analyses /\ atype a = "formulaic"%string /\ primary_formula a = None
  end.
Proof.
  match goal with |- context [fold_left ?f _ _] => set (step := f) end.
  revert acc. induction analyses as [|a analyses IH]; intros acc.
  - exists []. by rewrite app_nil_r.
  - cbn [fold_left]. destruct (serializable a) as [e|x] eqn:Ha.
    + assert (Hstep : step (Ok acc) a = Ok (acc ++ [e])).
      { unfold step. simpl. by rewrite Ha. }
      rewrite Hstep. specialize (IH (acc ++ [e])).
      destruct (fold_left step analyses (Ok (acc ++ [e]))) as [out|x].
      * destruct IH as (entries & -> & Hall). exists (e :: entries).
        rewrite <- app_assoc. split; [done|]. by constructor.
      * destruct IH as (-> & b & Hb & Hrest). split; [done|]. exists b.
        split; [by right | done].
    + assert (Hstep : step (Ok acc) a = Raise x).
      { unfold step. simpl. by rewrite Ha. }
      rewrite Hstep.
      assert (Hraise : forall l, fold_left step l (Raise x) = Raise x).
      { induction l as [|b l IHl]; [done|]. cbn [fold_left]. by rewrite <- IHl at 2. }
      rewrite Hraise. apply serializable_raise in Ha as (-> & Hty & Hnone).
      split; [done|]. exists a. split; [by left | done].
Qed.

(** X12: the writer stores one entry per analysis, in order, with the
    line number, character, line, type, probability and deviation flag of
    the analysis; formulaic entries also hold the original texts of the
    detected and of the primary formula, the others neither of the two
    keys; the count is the length of the second list and the stored
    threshold is always 3.  Its only error is the [KeyError] of a formulaic
    analysis without primary formula. *)
Theorem save_deviation_data_entries (analyses high_surprisal : list Analysis) :
  match save_deviation_data analyses high_surprisal with
  | Ok data =>
      high_surprisal_count data = Z.of_nat (length high_surprisal) /\
      high_surprisal_threshold data = Fin 3 /\
      Forall2
        (fun a e =>
           e_line_num e = line_num (mention a) /\
           e_character e = character (mention a) /\
           e_line e = line (mention a) /\
           e_type e = atype a /\
           e_probability e = probability a /\
           e_is_deviation e = is_deviation a /\
           (if String.eqb (atype a) "formulaic"
            then e_detected_formulae e = Some (map original (detected_formulae a)) /\
                 e_primary_formula e = option_map original (primary_formula a) /\
                 primary_formula a <> None
            else e_detected_formulae e = None /\ e_primary_formula e = None))
        analyses (all_analyses data)
  | Raise e =>
      e = KeyError /\
      exists a, In a analyses /\ atype a = "formulaic"%string /\ primary_formula a = None
  end.
Proof.
  unfold save_deviation_data. pose proof (save_fold_exact analyses []) as H.
  match type of H with context [fold_left ?f _ _] => set (step := f) in * end.
  destruct (fold_left step analyses (Ok [])) as [entries|x]; simpl; [|done].
  destruct H as (entries' & -> & Hall). simpl.
  split; [done|]. split; [done|].
  eapply Forall2_impl; [exact Hall|]. intros a e. apply serializable_fields.
Qed.

Section SavingTheAnalyses.
Context {L : StrLower}.

Lemma analyze_well_formed (m : Mention) (fp : gmap string (list Formula))
    (ex : gmap string Profile) (a : Analysis) :
  analyze_mention_surprisal m fp ex = Ok (Some a) ->
  mention a = m /\
  (atype a = "formulaic"%string \/ atype a = "bare_mention"%string) /\
  (atype a <> "bare_mention"%string -> primary_formula a <> None).
Proof.
  intros Ha.
  destruct (analyze_mention_surprisal_total m fp ex) as (r & Hr & Hspec).
  rewrite Ha in Hr. injection Hr as <-.
  destruct Hspec as (_ & Hm & [[Hty _]|[Hty _]]).
  - split; [done|]. split; [by right|]. by rewrite Hty.
  - destruct (analyze_formulaic_inv m fp ex a Ha Hty) as (primary & Hp & _).
    split; [done|]. split; [by left|]. by rewrite Hp.
Qed.

Lemma find_deviations_well_formed (mentions : list Mention)
    (fp : gmap string (list Formula)) (ex : gmap string Profile)
    (analyses : list Analysis) :
  find_deviations mentions fp ex = Ok analyses ->
  Forall (fun a =>
            (atype a = "formulaic"%string \/ atype a = "bare_mention"%string) /\
            (atype a <> "bare_mention"%string -> primary_formula a <> None))
         analyses.
Proof.
  intros H. destruct (find_deviations_each _ _ _ _ H) as [_ Hall].
  eapply Forall_impl; [exact Hall|]. intros a Ha. simpl in Ha.
  by destruct (analyze_well_formed _ _ _ _ Ha) as (_ & ? & ?).
Qed.

(** X13: whatever index and expectations the analyses were made with, the
    writer accepts the result of [find_deviations]: it never raises on it,
    and its entries are, in order, those of the mentions whose character
    has a profile. *)
Theorem save_after_find_deviations (mentions : list Mention)
    (fp : gmap string (list Formula)) (ex : gmap string Profile)
    (analyses high_surprisal : list Analysis) :
  find_deviations mentions fp ex = Ok analyses ->
  exists data,
    save_deviation_data analyses high_surprisal = Ok data /\
    map (fun e => (e_character e, e_line_num e, e_line e)) (all_analyses data)
    = map (fun m => (character m, line_num m, line m))
          (List.filter (has_profile ex) mentions).
Proof.
  intros Hfind. pose proof (find_deviations_well_formed _ _ _ _ Hfind) as Hwf.
  destruct (find_deviations_each _ _ _ _ Hfind) as [Hmap _].
  pose proof (save_fold_exact analyses []) as H. unfold save_deviation_data.
  match type of H with context [fold_left ?f _ _] => set (step := f) in * end.
  destruct (fold_left step analyses (Ok [])) as [entries|x].
  - destruct H as (entries' & -> & Hall). simpl. eexists. split; [done|]. simpl.
    rewrite <- Hmap, map_map. clear Hmap Hwf Hfind.
    induction Hall as [|a e l l' He Hall IH]; [done|]. simpl. rewrite IH.
    by destruct (serializable_fields a e He) as (-> & -> & -> & _).
  - exfalso. destruct H as (_ & a & Hin & Hty & Hnone).
    rewrite Forall_forall in Hwf.
    destruct (Hwf a (proj2 (list_elem_of_In _ _) Hin)) as [_ Hp].
    apply Hp; [by rewrite Hty | done].
Qed.

End SavingTheAnalyses.

Lemma save_after_find_deviations_witness :
  exists analyses data,
    @find_deviations beta_code [mention_unknown; mention_plain] achilles_index
      achilles_expectations = Ok analyses /\
    save_deviation_data analyses [] = Ok data /\
    map (fun e => (e_character e, e_line_num e, e_line e)) (all_analyses data)
    = [(character mention_plain, line_num mention_plain, line mention_plain)].
Proof.
  assert (Hfind : @find_deviations beta_code [mention_unknown; mention_plain]
                    achilles_index achilles_expectations = Ok [plain_analysis]).
  { unfold find_deviations. cbn [fold_left].
    replace (@analyze_mention_surprisal beta_code mention_unknown achilles_index
               achilles_expectations) with (@Ok (option Analysis) None)
      by (vm_compute; reflexivity).
    rewrite analyze_plain. reflexivity. }
  destruct (@save_after_find_deviations beta_code _ _ _ _ [] Hfind) as (data & Hsave & Hmap).
  exists [plain_analysis], data. split; [exact Hfind|]. split; [exact Hsave|].
  rewrite Hmap. vm_compute. reflexivity.
Defined.

(** ** The report *)

Lemma percent_positive_total (count total : Z) :
  0 < total -> percent count total = Ok (Qmake count 1 / Qmake total 1 * 100)%Q.
Proof.
  intros H. unfold percent, py_truediv.
  by rewrite (proj2 (Z.eqb_neq total 0)) by lia.
Qed.

Lemma percent_bounds (count total : Z) :
  0 <= count <= total -> 0 < total ->
  (0 <= Qmake count 1 / Qmake total 1 * 100 <= 100)%Q.
Proof.
  intros Hc Ht.
  assert (H0 : (0 <= Qmake count 1 / Qmake total 1)%Q).
  { apply Qle_shift_div_l; unfold Qlt, Qle; simpl; lia. }
  assert (H1 : (Qmake count 1 / Qmake total 1 <= 1)%Q).
  { apply Qle_shift_div_r; unfold Qlt, Qle; simpl; lia. }
  split.
  - apply Qmult_le_0_compat; [done | discriminate].
  - apply Qle_trans with (1 * 100)%Q; [|discriminate].
    apply Qmult_le_compat_r; [done | discriminate].
Qed.

Lemma count_where_bounds (cond : Analysis -> bool) (analyses : list Analysis) :
  0 <= count_where cond analyses <= Z.of_nat (length analyses).
Proof.
  unfold count_where. induction analyses as [|a l IH]; simpl; [lia|].
  destruct (cond a); simpl length; lia.
Qed.



Lemma dict_keys_fold (database : Database) (acc : list string) :
  NoDup acc ->
  let keys :=
    fold_left
      (fun keys entry =>
         if existsb (String.eqb (fst entry)) keys then keys else keys ++ [fst entry])
      database acc in
  NoDup keys /\ forall c, In c keys <-> In c acc \/ In c (map fst database).
Proof.
  revert acc. induction database as [|e database IH]; intros acc Hnd; simpl.
  - split; [done|]. intros c. tauto.
  - destruct (existsb (String.eqb (fst e)) acc) eqn:E.
    + destruct (IH acc Hnd) as [H1 H2]. split; [done|]. intros c. rewrite H2.
      apply existsb_exists in E as (k & Hk & Heq%String.eqb_eq). subst k.
      split; [tauto|]. intros [H|[<-|H]]; tauto.
    + assert (Hnot : ~ In (fst e) acc).
      { intros Hin. assert (existsb (String.eqb (fst e)) acc = true); [|congruence].
        apply existsb_exists. exists (fst e). split; [done|]. apply String.eqb_refl. }
      destruct (IH (acc ++ [fst e])) as [H1 H2].
      { apply NoDup_app. split; [done|]. split; [|apply NoDup_singleton].
        intros x Hx%list_elem_of_In Hx'%list_elem_of_In.
        destruct Hx' as [<-|[]]. done. }
      split; [done|]. intros c. rewrite H2, in_app_iff. simpl. tauto.
Qed.

Lemma dict_keys_spec (database : Database) :
  NoDup (dict_keys database) /\
  forall c, In c (dict_keys database) <-> In c (map fst database).
Proof.
  destruct (dict_keys_fold database [] (NoDup_nil_2 (A:=string))) as [H1 H2].
  split; [done|]. intros c. unfold dict_keys. rewrite H2. simpl. tauto.
Qed.

Lemma character_section_total (analyses : list Analysis) (c : string) :
  let char_analyses :=
    List.filter (fun a => String.eqb (character (mention a)) c) analyses in
  let char_deviations := List.filter is_deviation char_analyses in
  character_section analyses c
  = Ok (match char_analyses with
        | [] => None
        | _ :: _ =>
            Some {| cs_character := c;
                    cs_total := Z.of_nat (length char_analyses);
                    cs_deviations := Z.of_nat (length char_deviations);
                    cs_deviations_percent :=
                      (Qmake (Z.of_nat (length char_deviations)) 1
                       / Qmake (Z.of_nat (length char_analyses)) 1 * 100)%Q;
                    cs_most_surprising :=
                      firstn 3 (sort_desc surprisal char_analyses) |}
        end).
Proof.
  cbv zeta. unfold character_section.
  destruct (List.filter _ analyses) as [|a l] eqn:E; [done|].
  rewrite percent_positive_total by (simpl length; lia). done.
Qed.

(** The section of character [c], when it has one. *)
Lemma character_sections_fold (analyses : list Analysis) (keys : list string)
    (acc : list CharacterSection) :
  exists sections,
    fold_left
      (fun acc c =>
         sections ← acc;
         section ← character_section analyses c;
         mret (match section with
               | Some s => sections ++ [s]
               | None => sections
               end))
      keys (Ok acc) = Ok (acc ++ sections) /\
    map cs_character sections
    = List.filter
        (fun c => existsb (fun a => String.eqb (character (mention a)) c) analyses) keys /\
    Forall (fun s => character_section analyses (cs_character s) = Ok (Some s)) sections.
Proof.
  match goal with |- context [fold_left ?f _ _] => set (step := f) end.
  revert acc. induction keys as [|c keys IH]; intros acc.
  - exists []. by rewrite app_nil_r.
  - pose proof (character_section_total analyses c) as Hc. cbv zeta in Hc.
    assert (Hex : existsb (fun a => String.eqb (character (mention a)) c) analyses
                  = match List.filter (fun a => String.eqb (character (mention a)) c)
                                      analyses with [] => false | _ => true end).
    { clear. induction analyses as [|a l IH]; [done|]. simpl.
      destruct (String.eqb (character (mention a)) c); [done | apply IH]. }
    cbn [fold_left List.filter]. rewrite Hex.
    destruct (List.filter (fun a => String.eqb (character (mention a)) c) analyses)
      as [|a l] eqn:E.
    + assert (Hstep : step (Ok acc) c = Ok acc) by (unfold step; simpl; by rewrite Hc).
      rewrite Hstep. apply IH.
    + match type of Hc with _ = Ok (Some ?s) =>
        assert (Hstep : step (Ok acc) c = Ok (acc ++ [s]))
          by (unfold step; simpl; by rewrite Hc);
        destruct (IH (acc ++ [s])) as (sections & Hfold & Hmap & Hall);
        exists (s :: sections)
      end.
      rewrite Hstep, Hfold, <- app_assoc. split; [done|]. split.
      * simpl. by rewrite Hmap.
      * constructor; [exact Hc | done].
Qed.

(** X15: the breakdown by character never raises: its division is guarded.
    It has one section for each character of the database that has at
    least one analysis, in the order of the database and each character
    once; a section counts the analyses and the deviations of its
    character, gives the share of deviations between 0 and 100, and shows
    the (at most three) first analyses of the character's ranking. *)
Theorem character_sections_spec (analyses : list Analysis) (database : Database) :
  exists sections,
    character_sections analyses database = Ok sections /\
    NoDup (map cs_character sections) /\
    (forall c, In c (map cs_character sections) <->
               In c (map fst database) /\
               exists a, In a analyses /\ character (mention a) = c) /\
    Forall
      (fun s =>
         let char_analyses :=
           List.filter (fun a => String.eqb (character (mention a)) (cs_character s))
                       analyses in
         1 <= cs_total s /\
         cs_total s = Z.of_nat (length char_analyses) /\
         cs_deviations s = count_where is_deviation char_analyses /\
         (0 <= cs_deviations_percent s <= 100)%Q /\
         cs_most_surprising s = firstn 3 (sort_desc surprisal char_analyses) /\
         (length (cs_most_surprising s) <= 3)%nat)
      sections.
Proof.
  destruct (character_sections_fold analyses (dict_keys database) [])
    as (sections & Hfold & Hmap & Hall).
  destruct (dict_keys_spec database) as [Hnd Hkeys].
  exists sections. split; [exact Hfold|]. rewrite Hmap. split; [|split].
  - clear -Hnd. induction Hnd as [|k l Hk Hnd IH]; [constructor|]. simpl.
    destruct (existsb _ analyses); [|done]. constructor; [|done].
    intros Hin%list_elem_of_In. apply filter_In in Hin as [Hin _].
    by apply Hk, list_elem_of_In.
  - intros c. rewrite filter_In, Hkeys, existsb_exists.
    split; intros [H1 (a & Ha & Hc)]; (split; [done|]); exists a; (split; [done|]).
    + by apply String.eqb_eq.
    + by apply String.eqb_eq.
  - eapply Forall_impl; [exact Hall|]. intros s Hs. simpl in Hs. cbv zeta.
    remember (cs_character s) as c eqn:Hc0.
    pose proof (character_section_total analyses c) as Hc.
    cbv zeta in Hc. rewrite Hc in Hs. clear Hc.
    destruct (List.filter _ analyses) as [|a l] eqn:E; [done|].
    cbv iota in Hs. set (cl := a :: l) in *.
    assert (Hlen : 0 < Z.of_nat (length cl)) by (simpl length; lia).
    clearbody cl. injection Hs as Hs. rewrite <- Hs.
    cbn [cs_total cs_deviations cs_deviations_percent cs_most_surprising].
    split; [lia|]. split; [done|]. split; [done|].
    split; [apply percent_bounds; [apply (count_where_bounds is_deviation) | done]|].
    split; [done|]. apply firstn_le_length.
Qed.

Lemma enumerate_fst {A : Type} (i : Z) (l : list A) :
  map fst (enumerate i l) = map (fun k => i + Z.of_nat k) (seq 0 (length l)).
Proof.
  revert i. induction l as [|x l IH]; intros i; [done|]. cbn [enumerate map length seq fst].
  rewrite IH, <- seq_shift, map_map. f_equal; [lia|].
  apply map_ext. intros k. lia.
Qed.

Lemma report_moment_raise (i : Z) (a : Analysis) (e : exn) :
  report_moment i a = Raise e ->
  e = KeyError /\ atype a <> "bare_mention"%string /\ primary_formula a = None.
Proof.
  unfold report_moment.
  destruct (String.eqb_spec (atype a) "bare_mention") as [|Hne]; [done|].
  destruct (primary_formula a); [done|]. by intros [= <-].
Qed.

Lemma report_moment_ok (i : Z) (a : Analysis) (m : Moment) :
  report_moment i a = Ok m ->
  mo_rank m = i /\ mo_analysis m = a /\
  mo_formula m = (if String.eqb (atype a) "bare_mention" then None
                  else primary_formula a).
Proof.
  unfold report_moment. destruct (String.eqb (atype a) "bare_mention").
  - by intros [= <-].
  - destruct (primary_formula a); [|done]. by intros [= <-].
Qed.

Lemma report_moments_fold (items : list (Z * Analysis)) (acc : list Moment) :
  match
    fold_left
      (fun acc item =>
         moments ← acc;
         moment ← report_moment (fst item) (snd item);
         mret (moments ++ [moment]))
      items (Ok acc)
  with
  | Ok out => exists moments,
      out = acc ++ moments /\
      Forall2 (fun item m => report_moment (fst item) (snd item) = Ok m) items moments
  | Raise e =>
      e = KeyError /\
      exists a, In a (map snd items) /\
                atype a <> "bare_mention"%string /\ primary_formula a = None
  end.
Proof.
  match goal with |- context [fold_left ?f _ _] => set (step := f) end.
  revert acc. induction items as [|[i a] items IH]; intros acc.
  - exists []. by rewrite app_nil_r.
  - cbn [fold_left]. destruct (report_moment i a) as [m|x] eqn:Ha.
    + assert (Hstep : step (Ok acc) (i, a) = Ok (acc ++ [m])).
      { unfold step. simpl. by rewrite Ha. }
      rewrite Hstep. specialize (IH (acc ++ [m])).
      destruct (fold_left step items (Ok (acc ++ [m]))) as [out|x].
      * destruct IH as (moments & -> & Hall). exists (m :: moments).
        rewrite <- app_assoc. split; [done|]. by constructor.
      * destruct IH as (-> & b & Hb & Hrest). split; [done|]. exists b.
        split; [by right | done].
    + assert (Hstep : step (Ok acc) (i, a) = Raise x).
      { unfold step. simpl. by rewrite Ha. }
      rewrite Hstep.
      assert (Hraise : forall l, fold_left step l (Raise x) = Raise x).
      { induction l as [|b l IHl]; [done|]. cbn [fold_left]. by rewrite <- IHl at 2. }
      rewrite Hraise. apply report_moment_raise in Ha as (-> & Hty & Hnone).
      split; [done|]. exists a. split; [by left | done].
Qed.

Lemma In_firstn {A : Type} (n : nat) (l : list A) (x : A) :
  In x (firstn n l) -> In x l.
Proof.
  revert l. induction n as [|n IH]; intros [|y l]; simpl; try done.
  intros [->|H]; [by left | right; by apply IH].
Qed.

Lemma enumerate_snd {A : Type} (i : Z) (l : list A) : map snd (enumerate i l) = l.
Proof. revert i. induction l as [|x l IH]; intros i; [done|]. simpl. by rewrite IH. Qed.

Lemma report_moments_exact (high_surprisal : list Analysis) :
  match report_moments high_surprisal with
  | Ok moments =>
      map mo_analysis moments = firstn 50 high_surprisal /\
      map mo_rank moments = map Z.of_nat (seq 1 (length moments)) /\
      Forall (fun m => mo_formula m
                       = if String.eqb (atype (mo_analysis m)) "bare_mention"
                         then None else primary_formula (mo_analysis m)) moments
  | Raise e =>
      e = KeyError /\
      exists a, In a (firstn 50 high_surprisal) /\
                atype a <> "bare_mention"%string /\ primary_formula a = None
  end.
Proof.
  unfold report_moments.
  pose proof (report_moments_fold (enumerate 1 (firstn 50 high_surprisal)) []) as H.
  match type of H with context [fold_left ?f _ _] => set (step := f) in * end.
  destruct (fold_left step _ (Ok [])) as [out|x].
  - destruct H as (moments & -> & Hall). simpl.
    assert (Hfields : map mo_analysis moments
                      = map snd (enumerate 1 (firstn 50 high_surprisal)) /\
                      map mo_rank moments
                      = map fst (enumerate 1 (firstn 50 high_surprisal)) /\
                      Forall (fun m => mo_formula m
                                = if String.eqb (atype (mo_analysis m)) "bare_mention"
                                  then None else primary_formula (mo_analysis m))
                             moments).
    { clear -Hall. induction Hall as [|[i a] m items ms Hm Hall (IH1 & IH2 & IH3)];
        [done|].
      apply report_moment_ok in Hm as (Hr & Ha & Hf). simpl in *.
      rewrite IH1, IH2, Hr, Ha. split; [done|]. split; [done|].
      constructor; [by rewrite Ha | done]. }
    destruct Hfields as (H1 & H2 & H3).
    rewrite enumerate_snd in H1. split; [done|]. split; [|done].
    rewrite H2, enumerate_fst, <- H1, length_map, <- seq_shift, map_map.
    apply map_ext. intros k. lia.
  - by rewrite enumerate_snd in H.
Qed.

(** X16: the list of moments shows the first 50 entries of the ranking,
    or all of them when there are fewer, numbered from 1, each with its
    primary formula unless it is a bare mention; entries beyond the 50th
    are not looked at.  Its only error is the [KeyError] of one of the
    shown entries that is not a bare mention and has no primary formula. *)
Theorem report_moments_spec (high_surprisal : list Analysis) :
  match report_moments high_surprisal with
  | Ok moments =>
      map mo_analysis moments = firstn 50 high_surprisal /\
      (length moments <= 50)%nat /\
      map mo_rank moments = map Z.of_nat (seq 1 (length moments)) /\
      Forall (fun m => mo_formula m
                       = if String.eqb (atype (mo_analysis m)) "bare_mention"
                         then None else primary_formula (mo_analysis m)) moments
  | Raise e =>
      e = KeyError /\
      exists a, In a (firstn 50 high_surprisal) /\
                atype a <> "bare_mention"%string /\ primary_formula a = None
  end.
Proof.
  pose proof (report_moments_exact high_surprisal) as H.
  destruct (report_moments high_surprisal) as [moments|e]; [|done].
  destruct H as (H1 & H2 & H3). split; [done|]. split; [|done].
  rewrite <- (length_map mo_analysis), H1. apply firstn_le_length.
Qed.

Lemma overall_statistics_empty : overall_statistics [] = Raise ZeroDivisionError.
Proof. reflexivity. Qed.

Lemma overall_statistics_nonempty (analyses : list Analysis) :
  analyses <> [] ->
  exists st, overall_statistics analyses = Ok st /\
             st_total st = Z.of_nat (length analyses).
Proof.
  intros Hne. unfold overall_statistics.
  assert (Hpos : 0 < Z.of_nat (length analyses))
    by (destruct analyses; [done | simpl length; lia]).
  rewrite !percent_positive_total by done. simpl. by eexists.
Qed.

Lemma generate_deviation_report_empty (high_surprisal : list Analysis)
    (database : Database) :
  generate_deviation_report [] high_surprisal database = Raise ZeroDivisionError.
Proof. reflexivity. Qed.

Lemma generate_deviation_report_ok (analyses high_surprisal : list Analysis)
    (database : Database) :
  analyses <> [] ->
  Forall (fun a => atype a <> "bare_mention"%string -> primary_formula a <> None)
         (firstn 50 high_surprisal) ->
  exists report,
    generate_deviation_report analyses high_surprisal database = Ok report /\
    st_total (rp_statistics report) = Z.of_nat (length analyses) /\
    rp_shown report = Z.min 50 (Z.of_nat (length high_surprisal)) /\
    rp_shown report = Z.of_nat (length (rp_moments report)) /\
    map mo_analysis (rp_moments report) = firstn 50 high_surprisal.
Proof.
  intros Hne Hready. unfold generate_deviation_report.
  destruct (overall_statistics_nonempty analyses Hne) as (st & -> & Htotal).
  pose proof (report_moments_exact high_surprisal) as Hm.
  destruct (report_moments high_surprisal) as [moments|e].
  - destruct (character_sections_fold analyses (dict_keys database) [])
      as (sections & Hsec & _).
    unfold character_sections. rewrite Hsec. simpl. eexists. split; [done|]. simpl.
    destruct Hm as (Hm & _). split; [done|]. split; [done|]. split; [|done].
    rewrite <- (length_map mo_analysis), Hm, length_firstn. lia.
  - exfalso. destruct Hm as (_ & a & Hin & Hty & Hnone).
    rewrite Forall_forall in Hready.
    by apply (Hready a (proj2 (list_elem_of_In _ _) Hin)).
Qed.

(** X17: the report raises [ZeroDivisionError] when there is no analysis,
    whatever ranking and database it is given; on at least one analysis
    and a ranking whose first 50 entries carry their primary formula unless
    they are bare mentions, it is produced, announces as many moments as it
    lists, the smaller of 50 and the length of the ranking, and counts all
    the analyses. *)
Theorem generate_deviation_report_spec (analyses high_surprisal : list Analysis)
    (database : Database) :
  (analyses = [] ->
   generate_deviation_report analyses high_surprisal database
   = Raise ZeroDivisionError) /\
  (analyses <> [] ->
   Forall (fun a => atype a <> "bare_mention"%string -> primary_formula a <> None)
          (firstn 50 high_surprisal) ->
   exists report,
     generate_deviation_report analyses high_surprisal database = Ok report /\
     st_total (rp_statistics report) = Z.of_nat (length analyses) /\
     rp_shown report = Z.min 50 (Z.of_nat (length high_surprisal)) /\
     rp_shown report = Z.of_nat (length (rp_moments report)) /\
     map mo_analysis (rp_moments report) = firstn 50 high_surprisal).
Proof.
  split.
  - intros ->. apply generate_deviation_report_empty.
  - apply generate_deviation_report_ok.
Qed.

(** ** The whole run *)

Section RunFacts.
Context {L : StrLower}.

Lemma has_profile_known (mentions : list Mention) (database : Database)
    (ex : gmap string Profile) (m : Mention) :
  calculate_formula_expectations mentions (build_formula_patterns database) database
  = Ok ex ->
  has_profile ex m = existsb (String.eqb (character m)) (map fst database).
Proof.
  intros Hex. unfold has_profile.
  rewrite (expectations_lookup _ _ _ _ (character m) Hex).
  destruct (existsb _ (map fst database)) eqn:E.
  - apply existsb_exists in E as (c & Hc & Heq%String.eqb_eq). subst c.
    destruct (build_formula_patterns database !! character m) eqn:F; [done|].
    by apply build_formula_patterns_absent in F.
  - destruct (build_formula_patterns database !! character m) eqn:F; [|done].
    assert (Hin : In (character m) (map fst database)).
    { destruct (in_dec String.string_dec (character m) (map fst database)) as [H|H];
        [done|]. apply build_formula_patterns_absent in H. congruence. }
    assert (existsb (String.eqb (character m)) (map fst database) = true); [|congruence].
    apply existsb_exists. exists (character m). split; [done|]. apply String.eqb_refl.
Qed.

(** X18: the run ends in [ZeroDivisionError], raised by the report before
    anything is saved, exactly when no mention belongs to a character of
    the database; otherwise it completes, and both the report and the saved
    data cover, in order, the mentions of the database's characters, of
    which the high surprisal moments are a part. *)
Theorem main_spec (database : Database) (mentions : list Mention) :
  let known :=
    List.filter (fun m => existsb (String.eqb (character m)) (map fst database))
                mentions in
  match main database mentions with
  | Raise e => e = ZeroDivisionError /\ known = []
  | Ok (report, data) =>
      known <> [] /\
      st_total (rp_statistics report) = Z.of_nat (length known) /\
      map (fun e => (e_character e, e_line_num e, e_line e)) (all_analyses data)
      = map (fun m => (character m, line_num m, line m)) known /\
      high_surprisal_count data <= Z.of_nat (length known) /\
      rp_shown report = Z.min 50 (high_surprisal_count data)
  end.
Proof.
  cbv zeta. unfold main.
  set (fp := build_formula_patterns database).
  destruct (calculate_formula_expectations_total mentions fp database) as (ex & Hex & _).
  rewrite Hex. cbn [mbind result_bind].
  destruct (find_deviations_fold mentions fp ex []) as (analyses & Hfold & Hmap & _).
  assert (Hfind : find_deviations mentions fp ex = Ok analyses) by exact Hfold.
  rewrite Hfind. cbn [mbind result_bind].
  assert (Hknown : List.filter (has_profile ex) mentions
                   = List.filter (fun m => existsb (String.eqb (character m))
                                                   (map fst database)) mentions).
  { apply filter_ext. intros m. by apply (has_profile_known mentions). }
  rewrite Hknown in Hmap.
  set (known := List.filter _ mentions) in *.
  set (high := identify_high_surprisal_moments analyses (Fin 3)).
  pose proof (find_deviations_well_formed _ _ _ _ Hfind) as Hwf.
  assert (Hlen : length analyses = length known)
    by (by rewrite <- Hmap, length_map).
  assert (Hcase : analyses = [] \/ analyses <> [])
    by (destruct analyses; [by left | by right]).
  destruct Hcase as [->|Hne].
  - rewrite generate_deviation_report_empty. simpl. split; [done|].
    destruct known; [done | discriminate].
  - assert (Hready : Forall (fun a => atype a <> "bare_mention"%string ->
                                      primary_formula a <> None)
                            (firstn 50 high)).
    { rewrite Forall_forall in Hwf |- *. intros b Hb%list_elem_of_In.
      apply In_firstn, identify_In in Hb as [Hb _].
      by destruct (Hwf b (proj2 (list_elem_of_In _ _) Hb)). }
    destruct (generate_deviation_report_ok analyses high database Hne Hready)
      as (report & -> & Htotal & Hshown & _).
    cbn [mbind result_bind].
    pose proof (save_fold_exact analyses []) as Hsave. unfold save_deviation_data.
    match type of Hsave with context [fold_left ?f _ _] => set (step := f) in * end.
    destruct (fold_left step analyses (Ok [])) as [entries|x].
    + destruct Hsave as (entries' & -> & Hall). simpl.
      split.
      { intros Hk. rewrite Hk in Hlen. by destruct analyses. }
      split; [by rewrite Htotal, Hlen|]. split.
      * rewrite <- Hmap, map_map. clear -Hall.
        induction Hall as [|b e l l' He Hall IH]; [done|]. simpl. rewrite IH.
        by destruct (serializable_fields b e He) as (-> & -> & -> & _).
      * split; [|done]. rewrite <- Hlen.
        assert (Hperm : Permutation high
                  (List.filter (fun a => fgt (surprisal a) (Fin 3)) analyses))
          by apply sort_desc_perm.
        rewrite (Permutation_length Hperm).
        pose proof (count_where_bounds (fun a => fgt (surprisal a) (Fin 3)) analyses)
          as Hb. unfold count_where in Hb. lia.
    + exfalso. destruct Hsave as (_ & b & Hin & Hty & Hnone).
      rewrite Forall_forall in Hwf.
      destruct (Hwf b (proj2 (list_elem_of_In _ _) Hin)) as [_ Hp].
      apply Hp; [by rewrite Hty | done].
Qed.

End RunFacts.
